(** * eslint-plugin-rules-for-qwik: the four lint rules, embedded and verified

    The plugin exports four ESLint rules.  Each rule is an object with a
    [create(context)] method that returns a table of visitor callbacks; the
    callbacks probe the syntax tree they are handed (plain JavaScript objects
    with a [type] tag) and call [context.report].

    The embedding follows the revision of [index.js] that has all four
    rules.  It keeps the JavaScript semantics the callbacks rely on:
    property reads on [undefined]/[null] throw a [TypeError], [&&] and [||]
    short-circuit and return operands, [Array.prototype.find]/[some] stop at
    the first hit, and [context.report] appends to the host's diagnostics. *)

From Stdlib Require Import String Ascii List ZArith Bool Lia.
From stdpp Require Import gmap strings.
Import ListNotations.
Open Scope string_scope.
Open Scope list_scope.

(* ===================================================================== *)
(** ** JavaScript values *)
(* ===================================================================== *)

(** Property names read by the rules.  Syntax-tree nodes carry these as own
    properties; [length], [find], [some], [endsWith] and array indices are
    never own properties of a node and are modelled by the operations below. *)
Inductive key :=
| p_type | p_source | p_value | p_body | p_declaration | p_declarations
| p_id | p_name | p_init | p_key | p_properties | p_elements
| p_argument | p_arguments | p_callee | p_params | p_typeParameters
| p_computed | p_shorthand | p_kind.

Scheme Equality for key.

#[warnings="-register-all"]
Inductive value :=
| Undefined
| Null
| Bool (b : bool)
| Number (n : Z)
| Str (s : string)
| Array (elems : list value)
| Object (props : list (key * value)).

(** Own-property lookup; a property that is absent reads as [undefined]. *)
Fixpoint own_property (k : key) (ps : list (key * value)) : value :=
  match ps with
  | [] => Undefined
  | (k', v) :: ps' => if key_beq k k' then v else own_property k ps'
  end.

(** ToBoolean. *)
Definition truthy (v : value) : bool :=
  match v with
  | Undefined | Null => false
  | Bool b => b
  | Number n => negb (Z.eqb n 0)
  | Str s => negb (String.eqb s "")
  | Array _ | Object _ => true
  end.

(** [v === 'lit'] for a string literal on the right. *)
Definition str_eq (v : value) (lit : string) : bool :=
  match v with
  | Str s => String.eqb s lit
  | _ => false
  end.

Definition nullish (v : value) : bool :=
  match v with
  | Undefined | Null => true
  | _ => false
  end.

(* ===================================================================== *)
(** ** Completions, the diagnostics sink and the evaluation monad *)
(* ===================================================================== *)

Inductive error := TypeError | SyntaxError.

Inductive completion (A : Type) :=
| Normal (a : A)
| Throw (e : error).
Arguments Normal {A} a.
Arguments Throw {A} e.

(** What [context.report({node, message})] hands to the host. *)
Record diagnostic := Diagnostic { diag_node : value; diag_message : string }.

(** The host's sink: every diagnostic reported so far, oldest first. *)
Definition sink := list diagnostic.

Definition M (A : Type) : Type := sink -> completion A * sink.

Definition ret {A} (a : A) : M A := fun s => (Normal a, s).
Definition throw {A} (e : error) : M A := fun s => (Throw e, s).
Definition bind {A B} (m : M A) (f : A -> M B) : M B :=
  fun s =>
    match m s with
    | (Normal a, s') => f a s'
    | (Throw e, s') => (Throw e, s')
    end.

Notation "x <- m ;; k" := (bind m (fun x => k))
  (at level 100, m at next level, right associativity).

(** [v.k] *)
Definition get (v : value) (k : key) : M value :=
  match v with
  | Undefined | Null => throw TypeError
  | Object ps => ret (own_property k ps)
  | Bool _ | Number _ | Str _ | Array _ => ret Undefined
  end.

(** [m.k] where [m] is itself an expression. *)
Definition dot (m : M value) (k : key) : M value := v <- m ;; get v k.
Notation "m # k" := (dot m k) (at level 8, left associativity, format "m # k").

(** [a && b], [a || b], [!a]: operands are returned, not coerced. *)
Definition andM (a b : M value) : M value :=
  x <- a ;; if truthy x then b else ret x.
Definition orM (a b : M value) : M value :=
  x <- a ;; if truthy x then ret x else b.
Definition notM (a : M value) : M value :=
  x <- a ;; ret (Bool (negb (truthy x))).
Notation "a &&& b" := (andM a b) (at level 40, left associativity).
Notation "a ||| b" := (orM a b) (at level 50, left associativity).

(** [m === 'lit'] and [m !== 'lit']. *)
Definition seqM (m : M value) (lit : string) : M value :=
  x <- m ;; ret (Bool (str_eq x lit)).
Definition sneM (m : M value) (lit : string) : M value :=
  x <- m ;; ret (Bool (negb (str_eq x lit))).
Notation "m === lit" := (seqM m lit) (at level 30, no associativity).
Notation "m !== lit" := (sneM m lit) (at level 30, no associativity).

(** [if (c) { a } else { b }] *)
Notation "'If' c 'Then' a 'Else' b" :=
  (bind c (fun x => if truthy x then a else b))
  (at level 100, c at level 200, a at level 200, right associativity).

(** [Array.isArray(v)] *)
Definition isArray (v : value) : M value :=
  ret (Bool match v with Array _ => true | _ => false end).

(** [arr.find(p)]: the first element whose callback result is truthy, else
    [undefined].  A receiver that is not an array has no callable [find]. *)
Fixpoint find_loop (p : value -> M value) (l : list value) : M value :=
  match l with
  | [] => ret Undefined
  | x :: l' => r <- p x ;; if truthy r then ret x else find_loop p l'
  end.
Definition array_find (arr : M value) (p : value -> M value) : M value :=
  a <- arr ;;
  match a with
  | Array l => find_loop p l
  | _ => throw TypeError
  end.

(** [arr.some(p)] *)
Fixpoint some_loop {A} (p : A -> M value) (l : list A) : M value :=
  match l with
  | [] => ret (Bool false)
  | x :: l' => r <- p x ;; if truthy r then ret (Bool true) else some_loop p l'
  end.
Definition array_some (arr : M value) (p : value -> M value) : M value :=
  a <- arr ;;
  match a with
  | Array l => some_loop p l
  | _ => throw TypeError
  end.

(** [v.length > 0].  Arrays and strings have a length; every other
    non-nullish value reads [undefined], and [undefined > 0] is false. *)
Definition length_positive (m : M value) : M value :=
  v <- m ;;
  match v with
  | Undefined | Null => throw TypeError
  | Array l => ret (Bool (negb (Nat.eqb (List.length l) 0)))
  | Str s => ret (Bool (negb (Nat.eqb (String.length s) 0)))
  | Bool _ | Number _ | Object _ => ret (Bool false)
  end.

(** [v[0]] *)
Definition index0 (m : M value) : M value :=
  v <- m ;;
  match v with
  | Undefined | Null => throw TypeError
  | Array l => ret (hd Undefined l)
  | Str (String c _) => ret (Str (String c EmptyString))
  | Str EmptyString | Bool _ | Number _ | Object _ => ret Undefined
  end.

(** [String.prototype.endsWith], as the language defines it: the receiver's
    last [length suffix] code units are compared with [suffix]. *)
Definition string_endsWith (s suffix : string) : bool :=
  if Nat.ltb (String.length s) (String.length suffix) then false
  else String.eqb
         (substring (String.length s - String.length suffix)
                    (String.length suffix) s)
         suffix.

(** [v.endsWith('lit')]: only strings have the method. *)
Definition endsWith (m : M value) (suffix : string) : M value :=
  v <- m ;;
  match v with
  | Str s => ret (Bool (string_endsWith s suffix))
  | _ => throw TypeError
  end.

(** [context.report({node, message})] *)
Definition report (node : value) (message : string) : M value :=
  fun s => (Normal Undefined, s ++ [Diagnostic node message]).

(* ===================================================================== *)
(** ** The host interface: context, options, visitor tables *)
(* ===================================================================== *)

(** Resolved options of [require-document-head]: [{ excludedFiles: [...] }],
    where the property may be absent. *)
Record rule_options := RuleOptions { excludedFiles : option (list string) }.

(** The part of ESLint's [context] the rules read: [getFilename()],
    [options] and [getSourceCode().ast].  [report] is the effect above. *)
Record context := {
  getFilename : string;
  options : list rule_options;
  ast : value
}.

(** A visitor table maps a node-kind name to its callback. *)
Abbreviation visitors := (gmap string (value -> M value)).

(** The platform's [RegExp]: [new RegExp(pattern)] either throws a
    [SyntaxError] or yields a matcher whose [test] searches the subject. *)
Class RegExpEngine := {
  regexp : Type;
  RegExp_new : string -> option regexp;
  RegExp_test : regexp -> string -> bool
}.

(* ===================================================================== *)
(** ** Rule [no-direct-scss-imports] *)
(* ===================================================================== *)

Module NoDirectScssImports.

Definition message : string :=
  "Avoid direct imports of SCSS files in component libraries in Qwik. Use classes instead and import the SCSS file in the global SCSS file.".

Definition ImportDeclaration (ctx : context) (node : value) : M value :=
  importPath <- (get node p_source)#p_value ;;
  If endsWith (ret importPath) ".scss" ||| endsWith (ret importPath) ".css"
  Then report node message
  Else ret Undefined.

Definition create (ctx : context) : M visitors :=
  ret {[ "ImportDeclaration" := ImportDeclaration ctx ]}.

End NoDirectScssImports.

(* ===================================================================== *)
(** ** Rule [require-document-head] *)
(* ===================================================================== *)

Module RequireDocumentHead.
Section WithRegExp.
Context {engine : RegExpEngine}.

Definition message : string :=
  "Every route file must export a DocumentHead constant.".

(** [new RegExp(pattern).test(filePath)] *)
Definition RegExp_matches (pattern filePath : string) : M value :=
  match RegExp_new pattern with
  | Some re => ret (Bool (RegExp_test re filePath))
  | None => throw SyntaxError
  end.

(** [declaration => declaration.id.name === 'head' && declaration.init &&
    declaration.init.type === 'ArrowFunctionExpression'] *)
Definition isHeadArrow (declaration : value) : M value :=
  (get declaration p_id)#p_name === "head"
  &&& get declaration p_init
  &&& (get declaration p_init)#p_type === "ArrowFunctionExpression".

(** The callback of [sourceCode.ast.body.some(...)]. *)
Definition isHeadExport (node : value) : M value :=
  get node p_type === "ExportNamedDeclaration"
  &&& get node p_declaration
  &&& (get node p_declaration)#p_declarations
  &&& array_some ((get node p_declaration)#p_declarations) isHeadArrow.

Definition Program (ctx : context) (node : value) : M value :=
  hasDocumentHeadExport <- array_some (get (ast ctx) p_body) isHeadExport ;;
  If notM (ret hasDocumentHeadExport)
  Then report node message
  Else ret Undefined.

Definition create (ctx : context) : M visitors :=
  let filePath := getFilename ctx in
  let options := match options ctx with
                 | o :: _ => o
                 | [] => RuleOptions None
                 end in
  let excludedFiles := match excludedFiles options with
                       | Some l => l
                       | None => []
                       end in
  If some_loop (fun pattern => RegExp_matches pattern filePath) excludedFiles
  Then ret ∅
  Else ret {[ "Program" := Program ctx ]}.

(** The condition of that [if] on its own, under the name section 4.3 of
    the specification gives it. *)
Definition isExcluded (filePath : string) (patterns : list string) : M value :=
  some_loop (fun pattern => RegExp_matches pattern filePath) patterns.

End WithRegExp.
End RequireDocumentHead.

(* ===================================================================== *)
(** ** Rule [require-entity-query-conditions] *)
(* ===================================================================== *)

Module RequireEntityQueryConditions.

Definition quote : string := String (ascii_of_nat 34) EmptyString.

Definition message : string :=
  ("Entity queries must have the required " ++ quote ++ "status" ++ quote
   ++ " and " ++ quote ++ "dental_laboratory" ++ quote
   ++ " conditions either at the top level or in a group with AND conjunction.")%string.

Definition isEntityQuery (node : value) : M value :=
  get node p_type === "Property"
  &&& (get node p_key)#p_type === "Identifier"
  &&& (get node p_key)#p_name === "entityQuery".

(** [prop => prop.key.type === 'Identifier' && prop.key.name === name],
    the callback every [properties.find(...)] of the validator passes. *)
Definition keyIs (name : string) (prop : value) : M value :=
  (get prop p_key)#p_type === "Identifier"
  &&& (get prop p_key)#p_name === name.

(** The callback of [conditions.some(...)]; the source writes it twice,
    once with ['status'] and once with ['dental_laboratory']. *)
Definition conditionNames (fieldName : string) (condition : value) : M value :=
  If notM (ret condition) ||| get condition p_type !== "ObjectExpression"
  Then ret (Bool false)
  Else
    fieldProperty <- array_find (get condition p_properties) (keyIs "field") ;;
    ret fieldProperty
    &&& get fieldProperty p_value
    &&& (get fieldProperty p_value)#p_type === "Literal"
    &&& (get fieldProperty p_value)#p_value === fieldName.

Definition conditionsArrayHasRequired (conditions : value) : M value :=
  If notM (ret conditions) ||| notM (isArray conditions)
  Then ret (Bool false)
  Else
    hasStatusCondition <- array_some (ret conditions) (conditionNames "status") ;;
    hasDentalLabCondition <-
      array_some (ret conditions) (conditionNames "dental_laboratory") ;;
    ret hasStatusCondition &&& ret hasDentalLabCondition.

(** The callback of [groupsProperty.value.elements.some(...)]. *)
Definition groupHasRequired (group : value) : M value :=
  If notM (ret group) ||| get group p_type !== "ObjectExpression"
  Then ret (Bool false)
  Else
    conjunctionProperty <-
      array_find (get group p_properties) (keyIs "conjunction") ;;
    If ret conjunctionProperty
       &&& get conjunctionProperty p_value
       &&& (get conjunctionProperty p_value)#p_type === "Literal"
       &&& (get conjunctionProperty p_value)#p_value === "AND"
    Then
      groupConditionsProperty <-
        array_find (get group p_properties) (keyIs "conditions") ;;
      If ret groupConditionsProperty
         &&& get groupConditionsProperty p_value
         &&& (get groupConditionsProperty p_value)#p_type === "ArrayExpression"
      Then
        elements <- (get groupConditionsProperty p_value)#p_elements ;;
        conditionsArrayHasRequired elements
      Else ret (Bool false)
    Else ret (Bool false).

Definition hasRequiredConditions (node : value) : M value :=
  If notM (ret node) ||| get node p_type !== "ObjectExpression"
  Then ret (Bool false)
  Else
    argsProperty <- array_find (get node p_properties) (keyIs "__args") ;;
    If notM (ret argsProperty)
       ||| notM (get argsProperty p_value)
       ||| (get argsProperty p_value)#p_type !== "ObjectExpression"
    Then ret (Bool false)
    Else
      filterProperty <-
        array_find (get argsProperty p_value)#p_properties (keyIs "filter") ;;
      If notM (ret filterProperty)
         ||| notM (get filterProperty p_value)
         ||| (get filterProperty p_value)#p_type !== "ObjectExpression"
      Then ret (Bool false)
      Else
        conditionsProperty <-
          array_find (get filterProperty p_value)#p_properties
                     (keyIs "conditions") ;;
        If ret conditionsProperty
           &&& get conditionsProperty p_value
           &&& (get conditionsProperty p_value)#p_type === "ArrayExpression"
           &&& (elements <- (get conditionsProperty p_value)#p_elements ;;
                conditionsArrayHasRequired elements)
        Then ret (Bool true)
        Else
          groupsProperty <-
            array_find (get filterProperty p_value)#p_properties
                       (keyIs "groups") ;;
          If notM (ret groupsProperty)
             ||| notM (get groupsProperty p_value)
             ||| (get groupsProperty p_value)#p_type !== "ArrayExpression"
          Then ret (Bool false)
          Else
            array_some (get groupsProperty p_value)#p_elements groupHasRequired.

(** [prop => prop.key && prop.key.name === 'entityQuery'] *)
Definition namesEntityQuery (prop : value) : M value :=
  get prop p_key &&& (get prop p_key)#p_name === "entityQuery".

Definition Property (ctx : context) (node : value) : M value :=
  If isEntityQuery node
     &&& get node p_value
     &&& (get node p_value)#p_type === "ObjectExpression"
  Then
    If notM (v <- get node p_value ;; hasRequiredConditions v)
    Then report node message
    Else ret Undefined
  Else ret Undefined.

Definition VariableDeclarator (ctx : context) (node : value) : M value :=
  If get node p_id
     &&& (get node p_id)#p_type === "ObjectPattern"
     &&& (get node p_id)#p_properties
     &&& array_some (get node p_id)#p_properties namesEntityQuery
  Then
    If get node p_init
       &&& (get node p_init)#p_type === "AwaitExpression"
       &&& (get node p_init)#p_argument
       &&& (get node p_init)#p_argument#p_type === "CallExpression"
       &&& (get node p_init)#p_argument#p_arguments
       &&& length_positive (get node p_init)#p_argument#p_arguments
    Then
      queryArg <- index0 (get node p_init)#p_argument#p_arguments ;;
      If ret queryArg &&& get queryArg p_type === "ObjectExpression"
      Then
        entityQueryProp <-
          array_find (get queryArg p_properties) namesEntityQuery ;;
        If ret entityQueryProp
           &&& notM (v <- get entityQueryProp p_value ;;
                     hasRequiredConditions v)
        Then report node message
        Else ret Undefined
      Else ret Undefined
    Else ret Undefined
  Else ret Undefined.

Definition create (ctx : context) : M visitors :=
  ret {[ "Property" := Property ctx;
         "VariableDeclarator" := VariableDeclarator ctx ]}.

End RequireEntityQueryConditions.

(* ===================================================================== *)
(** ** Rule [require-generic-props] *)
(* ===================================================================== *)

Module RequireGenericProps.

Definition message : string :=
  "The component$ call must have generic type parameters defining the props.".

Definition CallExpression (ctx : context) (node : value) : M value :=
  If (get node p_callee)#p_type === "Identifier"
     &&& (get node p_callee)#p_name === "component$"
  Then
    arrowFunction <- index0 (get node p_arguments) ;;
    If ret arrowFunction
       &&& get arrowFunction p_type === "ArrowFunctionExpression"
       &&& length_positive (get arrowFunction p_params)
    Then
      If notM (get node p_typeParameters)
      Then report node message
      Else ret Undefined
    Else ret Undefined
  Else ret Undefined.

Definition create (ctx : context) : M visitors :=
  ret {[ "CallExpression" := CallExpression ctx ]}.

End RequireGenericProps.

(* ===================================================================== *)
(** ** The host's traversal *)
(* ===================================================================== *)

(** What a rule can observe of the host (spec sections 2 and 6): [create] is
    called once per file, then every visited node is handed to the callback
    registered under its kind, if there is one. *)
Definition visit (table : visitors) (node : value) : M value :=
  match node with
  | Object ps =>
      match own_property p_type ps with
      | Str kind =>
          match table !! kind with
          | Some callback => callback node
          | None => ret Undefined
          end
      | _ => ret Undefined
      end
  | _ => ret Undefined
  end.

Fixpoint traverse (table : visitors) (nodes : list value) : M value :=
  match nodes with
  | [] => ret Undefined
  | node :: rest => _ <- visit table node ;; traverse table rest
  end.

Definition lint (create : context -> M visitors) (ctx : context)
    (nodes : list value) : M value :=
  table <- create ctx ;; traverse table nodes.

(* ===================================================================== *)
(** ** Syntax trees: constructors and the ESTree shape of a node *)
(* ===================================================================== *)

Module ESTree.

Definition node (type : string) (fields : list (key * value)) : value :=
  Object ((p_type, Str type) :: fields).

Definition Identifier (name : string) : value :=
  node "Identifier" [(p_name, Str name)].
Definition Literal (v : value) : value :=
  node "Literal" [(p_value, v)].
Definition Property (k v : value) : value :=
  node "Property" [(p_key, k); (p_value, v)].
Definition SpreadElement (argument : value) : value :=
  node "SpreadElement" [(p_argument, argument)].
Definition RestElement (argument : value) : value :=
  node "RestElement" [(p_argument, argument)].
Definition ObjectExpression (properties : list value) : value :=
  node "ObjectExpression" [(p_properties, Array properties)].
Definition ObjectPattern (properties : list value) : value :=
  node "ObjectPattern" [(p_properties, Array properties)].
Definition ArrayExpression (elements : list value) : value :=
  node "ArrayExpression" [(p_elements, Array elements)].
Definition BlockStatement : value :=
  node "BlockStatement" [].
Definition ArrowFunctionExpression (params : list value) (body : value) : value :=
  node "ArrowFunctionExpression" [(p_params, Array params); (p_body, body)].
Definition FunctionExpression (params : list value) (body : value) : value :=
  node "FunctionExpression" [(p_params, Array params); (p_body, body)].
Definition FunctionDeclaration (id : value) (params : list value) (body : value) : value :=
  node "FunctionDeclaration" [(p_id, id); (p_params, Array params); (p_body, body)].
(** A call without explicit type arguments has no [typeParameters]. *)
Definition CallExpression (callee : value) (arguments : list value) : value :=
  node "CallExpression" [(p_callee, callee); (p_arguments, Array arguments)].
Definition CallExpressionWithTypes (callee typeParameters : value)
    (arguments : list value) : value :=
  node "CallExpression"
       [(p_callee, callee); (p_arguments, Array arguments);
        (p_typeParameters, typeParameters)].
Definition AwaitExpression (argument : value) : value :=
  node "AwaitExpression" [(p_argument, argument)].
(** [init] is [Null] for a binding without initializer. *)
Definition VariableDeclarator (id init : value) : value :=
  node "VariableDeclarator" [(p_id, id); (p_init, init)].
Definition VariableDeclaration (declarations : list value) : value :=
  node "VariableDeclaration" [(p_declarations, Array declarations)].
(** [declaration] is [Null] for [export { a, b }]. *)
Definition ExportNamedDeclaration (declaration : value) : value :=
  node "ExportNamedDeclaration" [(p_declaration, declaration)].
Definition ImportDeclaration (path : string) : value :=
  node "ImportDeclaration" [(p_source, Literal (Str path))].
Definition Program (body : list value) : value :=
  node "Program" [(p_body, Array body)].

(** [name: v] inside an object literal, and string literals. *)
Definition field (name : string) (v : value) : value :=
  Property (Identifier name) v.
Definition string (s : String.string) : value := Literal (Str s).

End ESTree.

(** A property read that cannot throw: [undefined] where [get] would throw
    or find nothing. *)
Definition prop_of (v : value) (k : key) : value :=
  match v with
  | Object ps => own_property k ps
  | _ => Undefined
  end.

Definition has_type (type : string) (v : value) : bool :=
  str_eq (prop_of v p_type) type.

Definition is_node (v : value) : bool :=
  match prop_of v p_type with
  | Str _ => true
  | _ => false
  end.

(** What the ESTree grammar says a property of a node holds. *)
Inductive kind :=
| K_string                         (* a string *)
| K_node                           (* a node *)
| K_opt_node                       (* a node or [null] *)
| K_nodes (types : list string)    (* an array of nodes of these types; [[]]: any *)
| K_opt_nodes                      (* an array of nodes and [null] holes *)
| K_string_literal.                (* a [Literal] node holding a string *)

Definition conforms (kd : kind) (v : value) : bool :=
  match kd with
  | K_string => match v with Str _ => true | _ => false end
  | K_node => is_node v
  | K_opt_node => match v with Null => true | _ => is_node v end
  | K_nodes types =>
      match v with
      | Array l =>
          forallb (fun e => is_node e &&
                            match types with
                            | [] => true
                            | _ => existsb (fun t => has_type t e) types
                            end) l
      | _ => false
      end
  | K_opt_nodes =>
      match v with
      | Array l => forallb (fun e => match e with Null => true | _ => is_node e end) l
      | _ => false
      end
  | K_string_literal =>
      has_type "Literal" v &&
      match prop_of v p_value with Str _ => true | _ => false end
  end.

(** The productions of the ESTree grammar for the node types the rules
    look into.  Object literals list [Property] and [SpreadElement] entries;
    only a [Property] has a [key]. *)
Definition grammar : list (string * list (key * kind)) :=
  [ ("Program", [(p_body, K_nodes [])]);
    ("ImportDeclaration", [(p_source, K_string_literal)]);
    ("ExportNamedDeclaration", [(p_declaration, K_opt_node)]);
    ("VariableDeclaration", [(p_declarations, K_nodes ["VariableDeclarator"])]);
    ("VariableDeclarator", [(p_id, K_node); (p_init, K_opt_node)]);
    ("FunctionDeclaration", [(p_params, K_nodes [])]);
    ("FunctionExpression", [(p_params, K_nodes [])]);
    ("ArrowFunctionExpression", [(p_params, K_nodes [])]);
    ("CallExpression", [(p_callee, K_node); (p_arguments, K_nodes [])]);
    ("AwaitExpression", [(p_argument, K_node)]);
    ("ObjectExpression", [(p_properties, K_nodes ["Property"; "SpreadElement"])]);
    ("ObjectPattern", [(p_properties, K_nodes ["Property"; "RestElement"])]);
    ("Property", [(p_key, K_node); (p_value, K_node)]);
    ("ArrayExpression", [(p_elements, K_opt_nodes)]);
    ("Identifier", [(p_name, K_string)]) ].

Fixpoint production (type : string) (g : list (string * list (key * kind)))
  : list (key * kind) :=
  match g with
  | [] => []
  | (t, fields) :: g' => if String.eqb type t then fields else production type g'
  end.

(** One object is shaped like a node: the properties its production lists
    hold what the grammar says, and only a [VariableDeclaration] has
    [declarations].  An object without a [type] tag is data, not a node. *)
Definition node_shape (ps : list (key * value)) : bool :=
  match own_property p_type ps with
  | Str type =>
      forallb (fun '(k, kd) => conforms kd (own_property k ps))
              (production type grammar)
      && (String.eqb type "VariableDeclaration"
          || match own_property p_declarations ps with
             | Undefined => true
             | _ => false
             end)
  | _ => true
  end.

(** An object literal without spread elements. *)
Definition no_spread (ps : list (key * value)) : bool :=
  if str_eq (own_property p_type ps) "ObjectExpression"
  then match own_property p_properties ps with
       | Array l => forallb (fun e => negb (has_type "SpreadElement" e)) l
       | _ => true
       end
  else true.

(** [P] holds of every object in the tree. *)
Fixpoint everywhere (P : list (key * value) -> bool) (v : value) : bool :=
  match v with
  | Object ps => P ps && forallb (fun '(_, child) => everywhere P child) ps
  | Array l => forallb (everywhere P) l
  | _ => true
  end.

(** Well-formed trees, as the parser produces them. *)
Definition estree (v : value) : bool := everywhere node_shape v.

(** Trees in which no object literal contains a spread element: every entry
    of an object literal is a key-value [Property]. *)
Definition spread_free (v : value) : bool := everywhere no_spread v.

(* ===================================================================== *)
(** ** The specification's vocabulary *)
(* ===================================================================== *)

Module Spec.

(** Data model: object literals, array literals, function expressions. *)
Definition isObjectLiteral (v : value) : bool := has_type "ObjectExpression" v.
Definition isArrayLiteral (v : value) : bool := has_type "ArrayExpression" v.
Definition isFunctionExpression (v : value) : bool :=
  has_type "FunctionExpression" v || has_type "ArrowFunctionExpression" v.
Definition isArrowFunction (v : value) : bool :=
  has_type "ArrowFunctionExpression" v.

(** Node predicate library (section 4.1). *)
Definition isNamedProperty (node : value) (name : string) : bool :=
  has_type "Property" node
  && has_type "Identifier" (prop_of node p_key)
  && str_eq (prop_of (prop_of node p_key) p_name) name.

Definition literalEquals (node : value) (v : string) : bool :=
  has_type "Literal" node && str_eq (prop_of node p_value) v.

(** The entries of an object literal, and the value of its property
    [name].  Keys are unique per object in the data model; the entry read
    is the first one under that name. *)
Definition entries (o : value) : list value :=
  match prop_of o p_properties with
  | Array l => l
  | _ => []
  end.

Definition entry (o : value) (name : string) : option value :=
  find (fun p => isNamedProperty p name) (entries o).

Definition property (o : value) (name : string) : option value :=
  if isObjectLiteral o
  then option_map (fun p => prop_of p p_value) (entry o name)
  else None.

(** The elements of the array literal held by property [name]. *)
Definition arrayProperty (o : value) (name : string) : option (list value) :=
  match property o name with
  | Some a =>
      if isArrayLiteral a
      then match prop_of a p_elements with
           | Array l => Some l
           | _ => None
           end
      else None
  | None => None
  end.

(** A condition object naming field [name]. *)
Definition namesField (name : string) (c : value) : Prop :=
  isObjectLiteral c = true /\
  exists v, property c "field" = Some v /\ literalEquals v name = true.

(** Section 4.2, step 4. *)
Definition satisfiesRequirement (conditions : list value) : Prop :=
  (exists c, In c conditions /\ namesField "status" c) /\
  (exists c, In c conditions /\ namesField "dental_laboratory" c).

(** The condition sets of a filter: its own [conditions], and the
    [conditions] of every group whose [conjunction] is ["AND"]. *)
Definition conditionSet (f : value) (conditions : list value) : Prop :=
  arrayProperty f "conditions" = Some conditions
  \/ exists groups g cj,
       arrayProperty f "groups" = Some groups /\
       In g groups /\
       isObjectLiteral g = true /\
       property g "conjunction" = Some cj /\
       literalEquals cj "AND" = true /\
       arrayProperty g "conditions" = Some conditions.

(** The invariant of section 3. *)
Definition isCompliant (f : value) : Prop :=
  exists conditions, conditionSet f conditions /\ satisfiesRequirement conditions.

(** Descending [entityQuery.__args.filter] from the entity-query object. *)
Definition filterOf (q : value) : option value :=
  match property q "__args" with
  | Some a =>
      match property a "filter" with
      | Some f => if isObjectLiteral f then Some f else None
      | None => None
      end
  | None => None
  end.

(** The entity-query object carries a compliant filter. *)
Definition queryCompliant (q : value) : Prop :=
  exists f, filterOf q = Some f /\ isCompliant f.

(** [s] ends in [suffix]. *)
Definition hasSuffix (s suffix : string) : Prop :=
  exists front, s = (front ++ suffix)%string.

(** The module path of an import declaration. *)
Definition importedPath (node : value) : string :=
  match prop_of (prop_of node p_source) p_value with
  | Str s => s
  | _ => ""
  end.

(** Call expressions. *)
Definition calleeIs (name : string) (call : value) : bool :=
  has_type "Identifier" (prop_of call p_callee)
  && str_eq (prop_of (prop_of call p_callee) p_name) name.

Definition lacksTypeArguments (call : value) : bool :=
  negb (truthy (prop_of call p_typeParameters)).

Definition firstArgument (call : value) : value :=
  match prop_of call p_arguments with
  | Array l => hd Undefined l
  | _ => Undefined
  end.

Definition declaresParameter (f : value) : bool :=
  match prop_of f p_params with
  | Array (_ :: _) => true
  | _ => false
  end.

(** The bindings a top-level statement exports: the declarators of
    [export const a = ..., b = ...]. *)
Definition exportedBindings (stmt : value) : list value :=
  if has_type "ExportNamedDeclaration" stmt
  then match prop_of (prop_of stmt p_declaration) p_declarations with
       | Array l => l
       | _ => []
       end
  else [].

(** The top-level sequence exports a binding [head] whose initializer
    satisfies [accepted]. *)
Definition exportsHead (accepted : value -> bool) (body : list value) : Prop :=
  exists stmt d,
    In stmt body /\ In d (exportedBindings stmt) /\
    str_eq (prop_of (prop_of d p_id) p_name) "head" = true /\
    accepted (prop_of d p_init) = true.

(** The top-level sequence of a file. *)
Definition body (ctx : context) : list value :=
  match prop_of (ast ctx) p_body with
  | Array l => l
  | _ => []
  end.

(** The configured exclusion patterns; absent means none. *)
Definition patterns (ctx : context) : list string :=
  match options ctx with
  | o :: _ => match excludedFiles o with Some l => l | None => [] end
  | [] => []
  end.

(** A pattern is valid regular-expression syntax; it matches a path. *)
Definition compiles {engine : RegExpEngine} (pattern : string) : bool :=
  match RegExp_new pattern with
  | Some _ => true
  | None => false
  end.

Definition matches {engine : RegExpEngine} (path pattern : string) : bool :=
  match RegExp_new pattern with
  | Some re => RegExp_test re path
  | None => false
  end.

(** An entry whose key is called [name]. *)
Definition keyNamed (name : string) (p : value) : bool :=
  str_eq (prop_of (prop_of p p_key) p_name) name.

(** An object pattern that destructures a property [name]. *)
Definition destructures (pattern : value) (name : string) : bool :=
  has_type "ObjectPattern" pattern && existsb (keyNamed name) (entries pattern).

(** The call of an initializer [await f(...)]. *)
Definition awaitedCall (init : value) : option value :=
  if has_type "AwaitExpression" init
  then if has_type "CallExpression" (prop_of init p_argument)
       then Some (prop_of init p_argument)
       else None
  else None.

(** The entry called [name] of an object literal. *)
Definition member (o : value) (name : string) : option value :=
  if isObjectLiteral o then find (keyNamed name) (entries o) else None.

End Spec.

(** Decision procedures for the specification's predicates. *)
Module Decide.

Definition namesField (name : string) (c : value) : bool :=
  Spec.isObjectLiteral c &&
  match Spec.property c "field" with
  | Some v => Spec.literalEquals v name
  | None => false
  end.

Definition satisfiesRequirement (conditions : list value) : bool :=
  existsb (namesField "status") conditions
  && existsb (namesField "dental_laboratory") conditions.

Definition arraySatisfies (o : value) (name : string) : bool :=
  match Spec.arrayProperty o name with
  | Some l => satisfiesRequirement l
  | None => false
  end.

Definition groupSatisfies (g : value) : bool :=
  Spec.isObjectLiteral g &&
  match Spec.property g "conjunction" with
  | Some cj => Spec.literalEquals cj "AND" && arraySatisfies g "conditions"
  | None => false
  end.

Definition isCompliant (f : value) : bool :=
  arraySatisfies f "conditions"
  || match Spec.arrayProperty f "groups" with
     | Some groups => existsb groupSatisfies groups
     | None => false
     end.

Definition queryCompliant (q : value) : bool :=
  match Spec.filterOf q with
  | Some f => isCompliant f
  | None => false
  end.

(** What [properties.find(...)] yields for [name]: the entry, else
    [undefined]; and the value that entry holds. *)
Definition found (o : value) (name : string) : value :=
  match Spec.entry o name with
  | Some p => p
  | None => Undefined
  end.

Definition held (o : value) (name : string) : value :=
  prop_of (found o name) p_value.

Definition genericProps (call : value) : bool :=
  Spec.lacksTypeArguments call
  && Spec.isArrowFunction (Spec.firstArgument call)
  && Spec.declaresParameter (Spec.firstArgument call).

Definition headBinding (accepted : value -> bool) (d : value) : bool :=
  str_eq (prop_of (prop_of d p_id) p_name) "head" && accepted (prop_of d p_init).

Definition exportsHead (accepted : value -> bool) (body : list value) : bool :=
  existsb (fun stmt => existsb (headBinding accepted) (Spec.exportedBindings stmt)) body.

End Decide.

(* ===================================================================== *)
(** ** A [RegExp] fragment for the examples *)
(* ===================================================================== *)

(** [needle] occurs in [subject]. *)
Fixpoint occurs (needle subject : string) : bool :=
  String.prefix needle subject
  || match subject with
     | String _ rest => occurs needle rest
     | EmptyString => false
     end.

Definition starts_with_quantifier (pattern : string) : bool :=
  match pattern with
  | String c _ => (Ascii.eqb c "*" || Ascii.eqb c "+" || Ascii.eqb c "?")%bool
  | EmptyString => false
  end.

(** The engine on the two kinds of pattern the examples use, and on those
    only: a pattern that starts with a quantifier has nothing to repeat and
    is a [SyntaxError]; a pattern of letters and slashes matches where it
    occurs in the subject.  The theorems hold for every engine. *)
Definition literal_engine : RegExpEngine :=
  {| regexp := string;
     RegExp_new pattern :=
       if starts_with_quantifier pattern then None else Some pattern;
     RegExp_test re subject := occurs re subject |}.

(* ===================================================================== *)
(** ** Judgements about a run *)
(* ===================================================================== *)

(** [m] completes with [r] and leaves the sink as it found it. *)
Definition evaluates {A} (m : M A) (r : completion A) : Prop :=
  forall s, m s = (r, s).

(** [m] completes normally and appends [ds] to the sink. *)
Definition reports {A} (m : M A) (a : A) (ds : list diagnostic) : Prop :=
  forall s, m s = (Normal a, s ++ ds).

(** [m] has one completion whatever the sink holds, and reports nothing. *)
Definition pure {A} (m : M A) : Prop := exists r, evaluates m r.

(** Well-formed trees whose object literals hold key-value properties only:
    the object literals of the specification's data model. *)
Definition plain (v : value) : Prop := estree v = true /\ spread_free v = true.

(* ===================================================================== *)
(** ** Example trees *)
(* ===================================================================== *)

Module Examples.
Import ESTree.

(** [{ field: name, value: v }] *)
Definition condition (name v : String.string) : value :=
  ObjectExpression [field "field" (string name); field "value" (string v)].

(** [{ conditions: [{field: 'status', ...}, {field: 'dental_laboratory', ...}] }] *)
Definition filter_top_level : value :=
  ObjectExpression
    [field "conditions"
       (ArrayExpression [condition "status" "open";
                         condition "dental_laboratory" "X"])].

(** [{ groups: [{ conjunction: 'AND', conditions: [{field: 'status', ...}] }] }] *)
Definition filter_group_incomplete : value :=
  ObjectExpression
    [field "groups"
       (ArrayExpression
          [ObjectExpression
             [field "conjunction" (string "AND");
              field "conditions" (ArrayExpression [condition "status" "open"])]])].

(** [{ __args: { filter: f } }] *)
Definition entityQuery (f : value) : value :=
  ObjectExpression [field "__args" (ObjectExpression [field "filter" f])].

(** [{ ...defaults, __args: { filter: { conditions: [...] } } }] *)
Definition entityQuery_with_spread : value :=
  ObjectExpression
    [SpreadElement (Identifier "defaults");
     field "__args" (ObjectExpression [field "filter" filter_top_level])].

(** [[{ ...base, field: 'status' }]], the elements of a [conditions] array. *)
Definition conditions_with_spread : value :=
  Array [ObjectExpression
           [SpreadElement (Identifier "base"); field "field" (string "status")]].

(** [entityQuery: { ...defaults, __args: ... }] *)
Definition property_with_spread : value :=
  field "entityQuery" entityQuery_with_spread.

(** [{ conditions: [{ ...base, field: 'status' }, { field: 'dental_laboratory' }] }] *)
Definition filter_with_spread_condition : value :=
  ObjectExpression
    [field "conditions"
       (ArrayExpression
          [ObjectExpression
             [SpreadElement (Identifier "base"); field "field" (string "status")];
           ObjectExpression [field "field" (string "dental_laboratory")]])].

(** [{ __args: { filter: { conditions: [{ ...base, field: 'status' }, ...] } } }] *)
Definition entityQuery_with_spread_condition : value :=
  entityQuery filter_with_spread_condition.

(** [entityQuery: { ...defaults }] *)
Definition property_only_spread : value :=
  field "entityQuery" (ObjectExpression [SpreadElement (Identifier "defaults")]).

(** [const { entityQuery } = await query({ entityQuery: { ...defaults } })] *)
Definition declarator_only_spread : value :=
  VariableDeclarator
    (ObjectPattern [field "entityQuery" (Identifier "entityQuery")])
    (AwaitExpression
       (CallExpression (Identifier "query")
          [ObjectExpression [property_only_spread]])).

(** [entityQuery: { __args: { filter: { groups: ... } } }] *)
Definition property_incomplete : value :=
  field "entityQuery" (entityQuery filter_group_incomplete).

(** [const { entityQuery } = await query({ entityQuery: { __args: {} } })] *)
Definition declarator_without_filter : value :=
  VariableDeclarator
    (ObjectPattern [field "entityQuery" (Identifier "entityQuery")])
    (AwaitExpression
       (CallExpression (Identifier "query")
          [ObjectExpression
             [field "entityQuery"
                (ObjectExpression [field "__args" (ObjectExpression [])])]])).

(** [component$(function (props) {})] *)
Definition component_function : value :=
  CallExpression (Identifier "component$")
                 [FunctionExpression [Identifier "props"] BlockStatement].

(** [component$((props) => {})] *)
Definition component_arrow : value :=
  CallExpression (Identifier "component$")
                 [ArrowFunctionExpression [Identifier "props"] BlockStatement].

(** [export const head = init] *)
Definition export_head (init : value) : value :=
  ExportNamedDeclaration
    (VariableDeclaration [VariableDeclarator (Identifier "head") init]).

(** [export function head() {}] *)
Definition export_function_head : value :=
  ExportNamedDeclaration (FunctionDeclaration (Identifier "head") [] BlockStatement).

Definition route (patterns : list rule_options) (body : list value) : context :=
  {| getFilename := "src/routes/about/index.tsx";
     options := patterns;
     ast := Program body |}.

(** A route whose only [head] export is [function () {}]. *)
Definition route_function_head : context :=
  route [] [export_head (FunctionExpression [] BlockStatement)].

(** A route that exports [function head() {}]. *)
Definition route_declared_head : context :=
  route [] [export_function_head].

(** A route without [head], excluded by the pattern [routes/about]. *)
Definition route_excluded : context :=
  route [RuleOptions (Some ["layout"; "routes/about"])] [].

(** A route configured with the globs of the README. *)
Definition route_globs : context :=
  route [RuleOptions (Some ["**/exclude-this-file.ts";
                            "**/exclude-this-directory/**"])] [].

End Examples.

(* ===================================================================== *)
(** ** Rule [require-generic-props], as the three-rule revision has it *)
(* ===================================================================== *)

(** The earlier revision of [index.js] exports three rules; two of them are
    the ones above, word for word.  Its [require-generic-props] does not
    look at the arguments of the call. *)
Module RequireGenericPropsEarlier.

Definition message : string :=
  "The component$ call must have generic type parameters defining the props.".

Definition CallExpression (ctx : context) (node : value) : M value :=
  If (get node p_callee)#p_type === "Identifier"
     &&& (get node p_callee)#p_name === "component$"
  Then
    If notM (get node p_typeParameters)
    Then report node message
    Else ret Undefined
  Else ret Undefined.

Definition create (ctx : context) : M visitors :=
  ret {[ "CallExpression" := CallExpression ctx ]}.

End RequireGenericPropsEarlier.

(* ===================================================================== *)
(** ** Shapes the callbacks tell apart *)
(* ===================================================================== *)

Module Shape.

(** The [entityQuery] entry a variable binding leads to, if it is of the
    triggering form: [const { entityQuery } = await f({ entityQuery: v })]. *)
Definition triggeringEntry (node : value) : option value :=
  if Spec.destructures (prop_of node p_id) "entityQuery"
  then match Spec.awaitedCall (prop_of node p_init) with
       | Some call => Spec.member (Spec.firstArgument call) "entityQuery"
       | None => None
       end
  else None.

(** An import declaration of a stylesheet. *)
Definition stylesheetImport (node : value) : bool :=
  has_type "ImportDeclaration" node
  && (string_endsWith (Spec.importedPath node) ".scss"
      || string_endsWith (Spec.importedPath node) ".css").

End Shape.

(* ===================================================================== *)
(** ** A judgement for callbacks *)
(* ===================================================================== *)

(** [m] leaves what was reported in place and adds at most one diagnostic,
    which is [message] on [node]; this also when [m] throws. *)
Definition reports_at_most_one (node : value) (message : string) (m : M value)
  : Prop :=
  forall s, exists r ds,
    m s = (r, s ++ ds) /\ (ds = [] \/ ds = [Diagnostic node message]).

(** [m] does with the validator's outcome [r] what a callback on [node]
    does: it fails as the validator failed, reports nothing on a truthy
    verdict, and reports [message] on [node] on a falsy one. *)
Definition follows (node : value) (message : string) (m : M value)
           (r : completion value) : Prop :=
  match r with
  | Normal verdict =>
      reports m Undefined
              (if truthy verdict then [] else [Diagnostic node message])
  | Throw e => evaluates m (Throw e)
  end.

(* ===================================================================== *)
(** * Theorems *)
(* ===================================================================== *)

(** ** Strings *)

Lemma substring_whole (s : string) : substring 0 (String.length s) s = s.
Proof. induction s as [|c s IH]; simpl; [reflexivity | now rewrite IH]. Qed.

Lemma substring_skip (front rest : string) (n : nat) :
  substring (String.length front) n (front ++ rest)%string = substring 0 n rest.
Proof. induction front as [|c front IH]; simpl; [reflexivity | exact IH]. Qed.

Lemma length_append (a b : string) :
  String.length (a ++ b)%string = String.length a + String.length b.
Proof. induction a as [|c a IH]; simpl; [reflexivity | now rewrite IH]. Qed.

Lemma substring_split (s : string) (n : nat) :
  n <= String.length s ->
  s = (substring 0 n s ++ substring n (String.length s - n) s)%string.
Proof.
  revert n; induction s as [|c s IH]; intros [|n] Hn; simpl in *;
    try reflexivity; try lia.
  - now rewrite substring_whole.
  - change (String c s = String c (substring 0 n s
                                   ++ substring n (String.length s - n) s)%string).
    f_equal. apply IH. lia.
Qed.

Lemma string_endsWith_spec (s suffix : string) :
  string_endsWith s suffix = true <-> Spec.hasSuffix s suffix.
Proof.
  unfold string_endsWith, Spec.hasSuffix. split.
  - destruct (Nat.ltb_spec (String.length s) (String.length suffix)) as [Hlt|Hle];
      [discriminate|].
    intros Heq. apply String.eqb_eq in Heq.
    exists (substring 0 (String.length s - String.length suffix) s).
    pose proof (substring_split s (String.length s - String.length suffix)) as Hs.
    replace (String.length s - (String.length s - String.length suffix))
      with (String.length suffix) in Hs by lia.
    rewrite Heq in Hs. apply Hs. lia.
  - intros [front ->]. rewrite length_append.
    destruct (Nat.ltb_spec (String.length front + String.length suffix)
                           (String.length suffix)) as [Hlt|Hle]; [lia|].
    replace (String.length front + String.length suffix - String.length suffix)
      with (String.length front) by lia.
    rewrite substring_skip, substring_whole. apply String.eqb_refl.
Qed.

(** ** Evaluation *)

Lemma evaluates_ret {A} (a : A) : evaluates (ret a) (Normal a).
Proof. intros s; reflexivity. Qed.

Lemma evaluates_bind {A B} (m : M A) (f : A -> M B) a r :
  evaluates m (Normal a) -> evaluates (f a) r -> evaluates (bind m f) r.
Proof. intros Hm Hf s. unfold bind. rewrite Hm. apply Hf. Qed.

Lemma evaluates_bind_throw {A B} (m : M A) (f : A -> M B) e :
  evaluates m (Throw e) -> evaluates (bind m f) (Throw e).
Proof. intros Hm s. unfold bind. now rewrite Hm. Qed.

Lemma reports_bind {A B} (m : M A) (f : A -> M B) a b ds :
  evaluates m (Normal a) -> reports (f a) b ds -> reports (bind m f) b ds.
Proof. intros Hm Hf s. unfold bind. rewrite Hm. apply Hf. Qed.

Lemma evaluates_reports {A} (m : M A) a :
  evaluates m (Normal a) -> reports m a [].
Proof. intros Hm s. rewrite app_nil_r. apply Hm. Qed.

Lemma evaluates_get (v : value) (k : key) :
  nullish v = false -> evaluates (get v k) (Normal (prop_of v k)).
Proof. destruct v; intros H st; try discriminate; reflexivity. Qed.

Lemma report_reports node message :
  reports (report node message) Undefined [Diagnostic node message].
Proof. intros s; reflexivity. Qed.

Lemma reports_by_verdict {A} (m : M A) a d (b : bool) (P : Prop) :
  (b = true <-> P) ->
  reports m a (if b then [] else [d]) ->
  (P -> reports m a []) /\ (~ P -> reports m a [d]).
Proof.
  intros Hb Hm. split; intros HP.
  - apply Hb in HP. now rewrite HP in Hm.
  - destruct b; [exfalso; apply HP; now apply Hb | exact Hm].
Qed.

Lemma reports_then {A B} (m : M A) (f : A -> M B) a b ds :
  reports m a ds -> evaluates (f a) (Normal b) -> reports (bind m f) b ds.
Proof. intros Hm Hf s. unfold bind. rewrite Hm. apply Hf. Qed.

(* ===================================================================== *)
(** ** Well-formed trees *)
(* ===================================================================== *)

Ltac in_production := cbn; repeat (first [left; reflexivity | right]).

Lemma everywhere_here P ps : everywhere P (Object ps) = true -> P ps = true.
Proof. simpl. intros H. now apply andb_true_iff in H. Qed.

Lemma everywhere_prop P v k :
  everywhere P v = true -> everywhere P (prop_of v k) = true.
Proof.
  destruct v as [| | | | |l|ps]; simpl; try reflexivity.
  intros H. apply andb_true_iff in H as [_ H].
  induction ps as [|[k' c] ps IH]; simpl in *; [reflexivity|].
  apply andb_true_iff in H as [Hc Hps].
  destruct (key_beq k k'); auto.
Qed.

Lemma everywhere_elem P l x :
  everywhere P (Array l) = true -> In x l -> everywhere P x = true.
Proof. simpl. intros H Hin. now apply (proj1 (forallb_forall _ _) H). Qed.

Lemma plain_prop v k : plain v -> plain (prop_of v k).
Proof. intros [H1 H2]; split; now apply everywhere_prop. Qed.

Lemma plain_elem l x : plain (Array l) -> In x l -> plain x.
Proof. intros [H1 H2] Hin; split; eapply everywhere_elem; eauto. Qed.

Lemma has_type_object t v :
  has_type t v = true -> exists ps, v = Object ps /\ own_property p_type ps = Str t.
Proof.
  unfold has_type, str_eq. destruct v as [| | | | |l|ps]; simpl; try discriminate.
  destruct (own_property p_type ps) eqn:E; try discriminate.
  intros H. apply String.eqb_eq in H. subst. eauto.
Qed.

Lemma is_node_object v : is_node v = true -> exists ps, v = Object ps.
Proof. destruct v; try discriminate; eauto. Qed.

Lemma estree_production t v k kd :
  estree v = true -> has_type t v = true ->
  In (k, kd) (production t grammar) ->
  conforms kd (prop_of v k) = true.
Proof.
  intros Hwf Ht Hin. apply has_type_object in Ht as (ps & -> & Hty).
  apply everywhere_here in Hwf. unfold node_shape in Hwf. rewrite Hty in Hwf.
  apply andb_true_iff in Hwf as [Hf _].
  apply (proj1 (forallb_forall _ _) Hf) in Hin. exact Hin.
Qed.

Lemma conforms_nodes ts v :
  conforms (K_nodes ts) v = true ->
  exists l, v = Array l /\
    forall e, In e l ->
      is_node e = true /\ (ts = [] \/ existsb (fun t => has_type t e) ts = true).
Proof.
  simpl. destruct v; try discriminate. intros H. eexists; split; [reflexivity|].
  intros e He. apply (proj1 (forallb_forall _ _) H) in He.
  apply andb_true_iff in He as [Hn Ht]. split; [exact Hn|].
  destruct ts; auto.
Qed.

(* ===================================================================== *)
(** ** The structural validator *)
(* ===================================================================== *)

Arguments str_eq : simpl never.

(** Evaluate the combinators and the property reads in the goal. *)
Ltac run :=
  unfold orM, andM, notM, seqM, sneM, dot, isArray, bind, get, ret;
  unfold Spec.isObjectLiteral, Spec.isArrayLiteral, has_type, prop_of in *;
  simpl in *.

Section Validator.
Import RequireEntityQueryConditions.

Lemma object_literal_entries o :
  plain o -> Spec.isObjectLiteral o = true ->
  exists l, prop_of o p_properties = Array l /\
    forall e, In e l -> has_type "Property" e = true /\ plain e.
Proof.
  intros Hp Ho. pose proof Hp as [Hwf Hsf].
  assert (Hc : conforms (K_nodes ["Property"; "SpreadElement"])
                        (prop_of o p_properties) = true)
    by (apply (estree_production "ObjectExpression"); auto; in_production).
  apply conforms_nodes in Hc as (l & Hl & Hall).
  exists l; split; [exact Hl|]. intros e He.
  split; [|apply (plain_elem l); auto; rewrite <- Hl; now apply plain_prop].
  destruct (Hall e He) as [_ [Hnil|Hty]]; [discriminate|].
  simpl in Hty. rewrite orb_false_r in Hty.
  apply has_type_object in Ho as (ps & -> & Hty').
  apply everywhere_here in Hsf. unfold no_spread in Hsf.
  rewrite Hty' in Hsf. simpl in Hsf, Hl. rewrite Hl in Hsf.
  apply (proj1 (forallb_forall _ _) Hsf) in He.
  destruct (has_type "SpreadElement" e); [discriminate|].
  now rewrite orb_false_r in Hty.
Qed.

Lemma property_entry e :
  has_type "Property" e = true -> estree e = true ->
  exists ps kps vps,
    e = Object ps /\ own_property p_key ps = Object kps /\
    own_property p_value ps = Object vps.
Proof.
  intros Ht Hwf.
  assert (Hk : conforms K_node (prop_of e p_key) = true)
    by (apply (estree_production "Property"); auto; in_production).
  assert (Hv : conforms K_node (prop_of e p_value) = true)
    by (apply (estree_production "Property"); auto; in_production).
  apply has_type_object in Ht as (ps & -> & _).
  apply is_node_object in Hk as [kps Hk]. apply is_node_object in Hv as [vps Hv].
  eauto 6.
Qed.

Lemma keyIs_evaluates name e :
  has_type "Property" e = true -> estree e = true ->
  evaluates (keyIs name e) (Normal (Bool (Spec.isNamedProperty e name))).
Proof.
  intros Ht Hwf s.
  destruct (property_entry e Ht Hwf) as (ps & kps & vps & -> & Hk & Hv).
  unfold Spec.isNamedProperty. rewrite Ht. simpl. unfold has_type. simpl.
  unfold keyIs, andM, seqM, dot, bind, get, ret. rewrite Hk. simpl.
  destruct (str_eq (own_property p_type kps) "Identifier"); reflexivity.
Qed.

Lemma find_loop_evaluates p pb l :
  (forall e, In e l -> exists r, evaluates (p e) (Normal r) /\ truthy r = pb e) ->
  evaluates (find_loop p l)
            (Normal (match find pb l with Some x => x | None => Undefined end)).
Proof.
  induction l as [|x l IH]; intros H s; simpl; [reflexivity|].
  destruct (H x (or_introl eq_refl)) as (r & Hr & Ht).
  unfold bind. rewrite Hr, Ht.
  destruct (pb x); [reflexivity|]. apply IH. intros e He. apply H. now right.
Qed.

Lemma some_loop_evaluates {A} (p : A -> M value) pb l :
  (forall e, In e l -> exists r, evaluates (p e) (Normal r) /\ truthy r = pb e) ->
  evaluates (some_loop p l) (Normal (Bool (existsb pb l))).
Proof.
  induction l as [|x l IH]; intros H s; simpl; [reflexivity|].
  destruct (H x (or_introl eq_refl)) as (r & Hr & Ht).
  unfold bind. rewrite Hr, Ht.
  destruct (pb x); [reflexivity|]. apply IH. intros e He. apply H. now right.
Qed.

Lemma find_property_evaluates o name :
  plain o -> Spec.isObjectLiteral o = true ->
  evaluates (array_find (get o p_properties) (keyIs name)) (Normal (Decide.found o name)).
Proof.
  intros Hp Ho s.
  destruct (object_literal_entries o Hp Ho) as (l & Hl & Hall).
  destruct (has_type_object _ _ Ho) as (ps & -> & _).
  unfold Decide.found, Spec.entry, Spec.entries. rewrite Hl.
  unfold array_find, bind, get, ret. simpl in Hl. rewrite Hl.
  apply find_loop_evaluates. intros e He.
  destruct (Hall e He) as [Ht [Hwf _]].
  eexists; split; [now apply keyIs_evaluates | reflexivity].
Qed.

(** What [Decide.found] can be: nothing, or a property entry with its value node. *)
Lemma found_cases o name :
  plain o -> Spec.isObjectLiteral o = true ->
  (Spec.entry o name = None /\ Decide.found o name = Undefined)
  \/ exists ps vps,
       Spec.entry o name = Some (Object ps) /\ Decide.found o name = Object ps /\
       own_property p_value ps = Object vps /\ plain (Object vps).
Proof.
  intros Hp Ho. unfold Decide.found.
  destruct (Spec.entry o name) as [p|] eqn:E; [right|left; auto].
  destruct (object_literal_entries o Hp Ho) as (l & Hl & Hall).
  unfold Spec.entry, Spec.entries in E. rewrite Hl in E.
  apply find_some in E as [Hin _].
  destruct (Hall p Hin) as [Ht Hpl].
  destruct (property_entry p Ht (proj1 Hpl)) as (ps & kps & vps & -> & Hk & Hv).
  exists ps, vps. repeat split; auto;
  rewrite <- Hv; change (own_property p_value ps) with (prop_of (Object ps) p_value);
  apply everywhere_prop; apply Hpl.
Qed.

Lemma conditionNames_evaluates name c :
  plain c ->
  exists r, evaluates (conditionNames name c) (Normal r)
            /\ truthy r = Decide.namesField name c.
Proof.
  intros Hp. unfold Decide.namesField.
  destruct (Spec.isObjectLiteral c) eqn:Ho.
  - destruct (has_type_object _ _ Ho) as (ps & -> & Hty).
    pose proof (find_property_evaluates _ "field" Hp Ho) as Hfind.
    unfold Spec.property. rewrite Ho.
    destruct (found_cases _ "field" Hp Ho) as [[He Hf] | (fps & vps & He & Hf & Hv & Hpv)];
      rewrite He; rewrite Hf in Hfind; simpl.
    + exists Undefined. split; [|reflexivity]. intros s.
      unfold conditionNames. run. rewrite Ho. simpl.
      unfold bind. rewrite Hfind. reflexivity.
    + rewrite Hv. unfold Spec.literalEquals, has_type. simpl.
      exists (if str_eq (own_property p_type vps) "Literal"
              then Bool (str_eq (own_property p_value vps) name)
              else Bool false).
      split.
      * intros s. unfold conditionNames. run. unfold str_eq at 1. rewrite Hty. simpl.
        unfold bind. rewrite Hfind. run. rewrite Hv. simpl.
        destruct (str_eq (own_property p_type vps) "Literal"); reflexivity.
      * destruct (str_eq (own_property p_type vps) "Literal"); reflexivity.
  - exists (Bool false). split; [|reflexivity]. intros s.
    destruct c as [| |[|]|n|str|l|ps]; try reflexivity.
    + unfold conditionNames. run. now destruct (n =? 0)%Z.
    + unfold conditionNames. run. now destruct (str =? "")%string.
    + unfold conditionNames. run. rewrite Ho. reflexivity.
Qed.

Lemma conditionsArrayHasRequired_evaluates l :
  plain (Array l) ->
  evaluates (conditionsArrayHasRequired (Array l))
            (Normal (Bool (Decide.satisfiesRequirement l))).
Proof.
  intros Hp s. unfold conditionsArrayHasRequired, Decide.satisfiesRequirement.
  assert (Hsome : forall name,
    evaluates (array_some (ret (Array l)) (conditionNames name))
              (Normal (Bool (existsb (Decide.namesField name) l)))).
  { intros name s'. unfold array_some, bind, ret.
    apply some_loop_evaluates. intros e He.
    apply conditionNames_evaluates. now apply (plain_elem l). }
  run. unfold bind. rewrite !Hsome.
  destruct (existsb (Decide.namesField "status") l); reflexivity.
Qed.

Lemma array_literal_elements a :
  plain a -> Spec.isArrayLiteral a = true ->
  exists l, prop_of a p_elements = Array l /\ plain (Array l).
Proof.
  intros Hp Ha.
  assert (Hc : conforms K_opt_nodes (prop_of a p_elements) = true)
    by (apply (estree_production "ArrayExpression"); auto; [apply Hp | in_production]).
  simpl in Hc. destruct (prop_of a p_elements) as [| | | | |l|] eqn:E; try discriminate.
  exists l. split; [reflexivity|]. rewrite <- E. now apply plain_prop.
Qed.

(** [conditionsArrayHasRequired] on the [conditions] entry of [o]. *)
Lemma conditions_entry_evaluates o :
  plain o -> Spec.isObjectLiteral o = true ->
  exists r,
    evaluates
      (ret (Decide.found o "conditions")
       &&& get (Decide.found o "conditions") p_value
       &&& (get (Decide.found o "conditions") p_value)#p_type === "ArrayExpression"
       &&& (elements <- (get (Decide.found o "conditions") p_value)#p_elements ;;
            conditionsArrayHasRequired elements))
      (Normal r)
    /\ truthy r = Decide.arraySatisfies o "conditions".
Proof.
  intros Hp Ho. unfold Decide.arraySatisfies, Spec.arrayProperty, Spec.property.
  rewrite Ho.
  destruct (found_cases _ "conditions" Hp Ho)
    as [[He Hf] | (fps & vps & He & Hf & Hv & Hpv)]; rewrite He, Hf; simpl.
  - exists Undefined. split; [|reflexivity]. intros s. reflexivity.
  - rewrite Hv. destruct (Spec.isArrayLiteral (Object vps)) eqn:Ha.
    + destruct (array_literal_elements _ Hpv Ha) as (l & Hl & Hpl). rewrite Hl.
      exists (Bool (Decide.satisfiesRequirement l)). split; [|reflexivity].
      intros s. run. rewrite ?Hv, ?Ha, ?Hl; simpl. rewrite ?Hv, ?Ha, ?Hl; simpl.
      apply conditionsArrayHasRequired_evaluates, Hpl.
    + exists (Bool false). split; [|reflexivity]. intros s. run.
      rewrite ?Hv, ?Ha; simpl. rewrite ?Hv, ?Ha; reflexivity.
Qed.

Lemma groupHasRequired_evaluates g :
  plain g ->
  evaluates (groupHasRequired g) (Normal (Bool (Decide.groupSatisfies g))).
Proof.
  intros Hp. unfold Decide.groupSatisfies.
  destruct (Spec.isObjectLiteral g) eqn:Ho.
  - destruct (has_type_object _ _ Ho) as (ps & -> & Hty).
    pose proof (find_property_evaluates _ "conjunction" Hp Ho) as Hfind.
    pose proof (find_property_evaluates _ "conditions" Hp Ho) as Hfind2.
    unfold Decide.arraySatisfies, Spec.arrayProperty, Spec.property. rewrite Ho.
    simpl.
    destruct (found_cases _ "conjunction" Hp Ho)
      as [[He Hf] | (fps & vps & He & Hf & Hv & Hpv)];
      rewrite He; rewrite Hf in Hfind; simpl.
    + intros s. unfold groupHasRequired. run. rewrite Ho. simpl.
      unfold bind. rewrite Hfind. reflexivity.
    + rewrite Hv. unfold Spec.literalEquals.
      destruct (has_type "Literal" (Object vps)) eqn:Hlit; simpl.
      2:{ intros s. unfold groupHasRequired. run. rewrite Ho. simpl.
          unfold bind. rewrite Hfind. run. rewrite Hv. simpl. rewrite Hlit.
          reflexivity. }
      destruct (str_eq (prop_of (Object vps) p_value) "AND") eqn:Hand; simpl.
      2:{ intros s. unfold groupHasRequired. run. rewrite Ho. simpl.
          unfold bind. rewrite Hfind. run. rewrite Hv. simpl. rewrite Hlit.
          simpl. rewrite Hand. reflexivity. }
      destruct (found_cases _ "conditions" Hp Ho)
        as [[He2 Hf2] | (fps2 & vps2 & He2 & Hf2 & Hv2 & Hpv2)];
        rewrite He2; rewrite Hf2 in Hfind2; simpl.
      * intros s. unfold groupHasRequired. run. rewrite Ho. simpl.
        unfold bind. rewrite Hfind. run. rewrite Hv. simpl. rewrite Hlit.
        simpl. rewrite Hand. simpl. unfold bind. rewrite Hfind2. reflexivity.
      * rewrite Hv2. destruct (Spec.isArrayLiteral (Object vps2)) eqn:Ha.
        -- destruct (array_literal_elements _ Hpv2 Ha) as (l & Hl & Hpl). rewrite Hl.
           intros s. unfold groupHasRequired. run. rewrite Ho. simpl.
           unfold bind. rewrite Hfind. run. rewrite Hv. simpl. rewrite Hlit.
           simpl. rewrite Hand. simpl. unfold bind. rewrite Hfind2. run.
           rewrite Hv2. simpl. rewrite Ha. simpl. rewrite Hl.
           apply conditionsArrayHasRequired_evaluates, Hpl.
        -- intros s. unfold groupHasRequired. run. rewrite Ho. simpl.
           unfold bind. rewrite Hfind. run. rewrite Hv. simpl. rewrite Hlit.
           simpl. rewrite Hand. simpl. unfold bind. rewrite Hfind2. run.
           rewrite Hv2. simpl. rewrite Ha. reflexivity.
  - intros s. destruct g as [| |[|]|n|str|l|ps]; try reflexivity.
    + unfold groupHasRequired. run. now destruct (n =? 0)%Z.
    + unfold groupHasRequired. run. now destruct (str =? "")%string.
    + unfold groupHasRequired. run. rewrite Ho. reflexivity.
Qed.

Lemma property_held o name :
  Spec.isObjectLiteral o = true ->
  Spec.property o name =
  match Spec.entry o name with Some _ => Some (Decide.held o name) | None => None end.
Proof.
  intros Ho. unfold Spec.property, Decide.held, Decide.found. rewrite Ho.
  now destruct (Spec.entry o name).
Qed.

Lemma held_typed o name t :
  Spec.isObjectLiteral o = true -> has_type t (Decide.held o name) = true ->
  Spec.property o name = Some (Decide.held o name).
Proof.
  intros Ho Ht. rewrite property_held by exact Ho.
  unfold Decide.held, Decide.found in *. now destruct (Spec.entry o name).
Qed.

Lemma held_plain o name :
  plain o -> Spec.isObjectLiteral o = true -> plain (Decide.held o name).
Proof.
  intros Hp Ho. unfold Decide.held.
  destruct (found_cases o name Hp Ho) as [[_ ->] | (ps & vps & _ & -> & Hv & Hpv)].
  - split; reflexivity.
  - simpl. now rewrite Hv.
Qed.

Lemma get_found o name k :
  plain o -> Spec.isObjectLiteral o = true -> is_node (Decide.held o name) = true ->
  evaluates ((get (Decide.found o name) p_value)#k) (Normal (prop_of (Decide.held o name) k)).
Proof.
  intros Hp Ho Hn s. unfold Decide.held in *.
  destruct (found_cases o name Hp Ho) as [[_ Hf] | (ps & vps & _ & Hf & Hv & Hpv)];
    rewrite Hf in *; [discriminate|].
  unfold dot, bind, get, ret. simpl. rewrite Hv. reflexivity.
Qed.

Lemma has_type_node t v : has_type t v = true -> is_node v = true.
Proof.
  intros H. apply has_type_object in H as (ps & -> & Hty).
  unfold is_node. simpl. now rewrite Hty.
Qed.

(** [!p || !p.value || p.value.type !== t] for [p = Decide.found o name]. *)
Lemma absent_or_mistyped_evaluates o name t :
  plain o -> Spec.isObjectLiteral o = true ->
  exists r,
    evaluates (notM (ret (Decide.found o name))
               ||| notM (get (Decide.found o name) p_value)
               ||| (get (Decide.found o name) p_value)#p_type !== t)
              (Normal r)
    /\ truthy r = negb (has_type t (Decide.held o name)).
Proof.
  intros Hp Ho. unfold Decide.held.
  destruct (found_cases o name Hp Ho) as [[_ Hf] | (ps & vps & _ & Hf & Hv & Hpv)];
    rewrite Hf.
  - exists (Bool true). split; [intros s|]; reflexivity.
  - exists (Bool (negb (has_type t (Object vps)))). split.
    + intros s. run. rewrite Hv. reflexivity.
    + simpl. now rewrite Hv.
Qed.

Lemma array_find_evaluates arr o name :
  plain o -> Spec.isObjectLiteral o = true ->
  evaluates arr (Normal (prop_of o p_properties)) ->
  evaluates (array_find arr (keyIs name)) (Normal (Decide.found o name)).
Proof.
  intros Hp Ho Harr s.
  pose proof (find_property_evaluates o name Hp Ho s) as H.
  unfold array_find, bind in *. rewrite Harr.
  rewrite (evaluates_get o p_properties) in H; [exact H|].
  apply has_type_object in Ho as (ps & -> & _). reflexivity.
Qed.

Lemma array_some_evaluates arr (p : value -> M value) pb l :
  evaluates arr (Normal (Array l)) ->
  (forall e, In e l -> exists r, evaluates (p e) (Normal r) /\ truthy r = pb e) ->
  evaluates (array_some arr p) (Normal (Bool (existsb pb l))).
Proof.
  intros Harr H s. unfold array_some, bind. rewrite Harr.
  now apply some_loop_evaluates.
Qed.

Lemma not_object_literal q :
  Spec.isObjectLiteral q = false ->
  evaluates (notM (ret q) ||| get q p_type !== "ObjectExpression")
            (Normal (Bool true)).
Proof.
  intros Ho s. destruct q as [| |[|]|n|str|l|ps]; try reflexivity.
  - run. now destruct (n =? 0)%Z.
  - run. now destruct (str =? "")%string.
  - run. rewrite Ho. reflexivity.
Qed.

Lemma object_literal q :
  Spec.isObjectLiteral q = true ->
  evaluates (notM (ret q) ||| get q p_type !== "ObjectExpression")
            (Normal (Bool false)).
Proof.
  intros Ho s. destruct (has_type_object _ _ Ho) as (ps & -> & _).
  run. rewrite Ho. reflexivity.
Qed.

Lemma isCompliant_evaluates fp f :
  plain f -> Spec.isObjectLiteral f = true ->
  (forall k, evaluates ((get fp p_value)#k) (Normal (prop_of f k))) ->
  evaluates
    (conditionsProperty <-
       array_find (get fp p_value)#p_properties (keyIs "conditions") ;;
     If ret conditionsProperty
        &&& get conditionsProperty p_value
        &&& (get conditionsProperty p_value)#p_type === "ArrayExpression"
        &&& (elements <- (get conditionsProperty p_value)#p_elements ;;
             conditionsArrayHasRequired elements)
     Then ret (Bool true)
     Else
       groupsProperty <-
         array_find (get fp p_value)#p_properties (keyIs "groups") ;;
       If notM (ret groupsProperty)
          ||| notM (get groupsProperty p_value)
          ||| (get groupsProperty p_value)#p_type !== "ArrayExpression"
       Then ret (Bool false)
       Else array_some (get groupsProperty p_value)#p_elements groupHasRequired)
    (Normal (Bool (Decide.isCompliant f))).
Proof.
  intros Hp Ho Hget. unfold Decide.isCompliant.
  eapply evaluates_bind; [apply (array_find_evaluates _ f); auto|].
  destruct (conditions_entry_evaluates f Hp Ho) as (r & Hr & Htr).
  eapply evaluates_bind; [exact Hr|]. rewrite Htr.
  destruct (Decide.arraySatisfies f "conditions"); [apply evaluates_ret|]. simpl.
  eapply evaluates_bind; [apply (array_find_evaluates _ f); auto|].
  destruct (absent_or_mistyped_evaluates f "groups" "ArrayExpression" Hp Ho)
    as (g & Hg & Htg).
  eapply evaluates_bind; [exact Hg|]. rewrite Htg.
  unfold Spec.arrayProperty.
  destruct (has_type "ArrayExpression" (Decide.held f "groups")) eqn:Ha; simpl.
  - rewrite (held_typed f "groups" _ Ho Ha).
    change (Spec.isArrayLiteral (Decide.held f "groups")) with
      (has_type "ArrayExpression" (Decide.held f "groups")). rewrite Ha.
    destruct (array_literal_elements _ (held_plain f "groups" Hp Ho) Ha)
      as (l & Hl & Hpl). rewrite Hl.
    apply array_some_evaluates.
    + rewrite <- Hl. apply get_found; auto. now apply (has_type_node "ArrayExpression").
    + intros e He. eexists; split; [apply groupHasRequired_evaluates|reflexivity].
      now apply (plain_elem l).
  - rewrite property_held by exact Ho.
    destruct (Spec.entry f "groups"); [|apply evaluates_ret].
    change (Spec.isArrayLiteral (Decide.held f "groups")) with
      (has_type "ArrayExpression" (Decide.held f "groups")). rewrite Ha.
    apply evaluates_ret.
Qed.

Lemma property_mistyped o name t :
  Spec.isObjectLiteral o = true -> has_type t (Decide.held o name) = false ->
  match Spec.property o name with
  | Some v => has_type t v = false
  | None => True
  end.
Proof.
  intros Ho Ht. rewrite property_held by exact Ho.
  now destruct (Spec.entry o name).
Qed.

Lemma hasRequiredConditions_evaluates q :
  plain q ->
  evaluates (hasRequiredConditions q) (Normal (Bool (Decide.queryCompliant q))).
Proof.
  intros Hp. unfold hasRequiredConditions, Decide.queryCompliant, Spec.filterOf.
  destruct (Spec.isObjectLiteral q) eqn:Ho.
  2:{ eapply evaluates_bind; [now apply not_object_literal|]. simpl.
      unfold Spec.property at 1. rewrite Ho. apply evaluates_ret. }
  eapply evaluates_bind; [now apply object_literal|]. simpl.
  eapply evaluates_bind;
    [apply (array_find_evaluates _ q); auto; apply evaluates_get;
     apply has_type_object in Ho as (ps & -> & _); reflexivity|].
  destruct (absent_or_mistyped_evaluates q "__args" "ObjectExpression" Hp Ho)
    as (r & Hr & Htr).
  eapply evaluates_bind; [exact Hr|]. rewrite Htr.
  destruct (has_type "ObjectExpression" (Decide.held q "__args")) eqn:Ha; simpl.
  2:{ pose proof (property_mistyped q "__args" _ Ho Ha) as Hm.
      destruct (Spec.property q "__args") as [a|]; [|apply evaluates_ret].
      unfold Spec.property. unfold Spec.isObjectLiteral. rewrite Hm.
      apply evaluates_ret. }
  rewrite (held_typed q "__args" _ Ho Ha).
  set (a := Decide.held q "__args") in *.
  assert (Hpa : plain a) by now apply held_plain.
  assert (Hna : is_node a = true) by now apply (has_type_node "ObjectExpression").
  eapply evaluates_bind;
    [apply (array_find_evaluates _ a); auto; now apply get_found|].
  destruct (absent_or_mistyped_evaluates a "filter" "ObjectExpression" Hpa Ha)
    as (r2 & Hr2 & Htr2).
  eapply evaluates_bind; [exact Hr2|]. rewrite Htr2.
  destruct (has_type "ObjectExpression" (Decide.held a "filter")) eqn:Hf; simpl.
  2:{ pose proof (property_mistyped a "filter" _ Ha Hf) as Hm.
      destruct (Spec.property a "filter") as [f|]; [|apply evaluates_ret].
      unfold Spec.isObjectLiteral. rewrite Hm. apply evaluates_ret. }
  rewrite (held_typed a "filter" _ Ha Hf).
  set (f := Decide.held a "filter") in *.
  change (Spec.isObjectLiteral f) with (has_type "ObjectExpression" f). rewrite Hf.
  apply isCompliant_evaluates; auto.
  - now apply held_plain.
  - intros k. apply get_found; auto. now apply (has_type_node "ObjectExpression").
Qed.

Lemma namesField_decides name c :
  Decide.namesField name c = true <-> Spec.namesField name c.
Proof.
  unfold Decide.namesField, Spec.namesField. split.
  - intros H. apply andb_true_iff in H as [Ho H]. split; [exact Ho|].
    destruct (Spec.property c "field") as [v|]; [eauto | discriminate].
  - intros [Ho (v & Hv & Hl)]. now rewrite Ho, Hv.
Qed.

Lemma satisfiesRequirement_decides l :
  Decide.satisfiesRequirement l = true <-> Spec.satisfiesRequirement l.
Proof.
  unfold Decide.satisfiesRequirement, Spec.satisfiesRequirement.
  rewrite andb_true_iff, !existsb_exists.
  split; intros [(c1 & H1 & N1) (c2 & H2 & N2)];
    (split; [exists c1 | exists c2]); (split; [assumption|]);
    now apply namesField_decides.
Qed.

Lemma arraySatisfies_decides o name :
  Decide.arraySatisfies o name = true <->
  exists l, Spec.arrayProperty o name = Some l /\ Spec.satisfiesRequirement l.
Proof.
  unfold Decide.arraySatisfies. split.
  - destruct (Spec.arrayProperty o name) as [l|]; [|discriminate].
    intros H. exists l. split; [reflexivity | now apply satisfiesRequirement_decides].
  - intros (l & -> & H). now apply satisfiesRequirement_decides.
Qed.

Lemma groupSatisfies_decides g :
  Decide.groupSatisfies g = true <->
  Spec.isObjectLiteral g = true /\
  exists cj l,
    Spec.property g "conjunction" = Some cj /\ Spec.literalEquals cj "AND" = true /\
    Spec.arrayProperty g "conditions" = Some l /\ Spec.satisfiesRequirement l.
Proof.
  unfold Decide.groupSatisfies. rewrite andb_true_iff. split.
  - intros [Ho H]. split; [exact Ho|].
    destruct (Spec.property g "conjunction") as [cj|]; [|discriminate].
    apply andb_true_iff in H as [Hc Ha].
    apply arraySatisfies_decides in Ha as (l & Hl & Hs). eauto 6.
  - intros [Ho (cj & l & -> & Hc & Hl & Hs)]. split; [exact Ho|].
    rewrite Hc. apply arraySatisfies_decides. eauto.
Qed.

Lemma isCompliant_decides f :
  Decide.isCompliant f = true <-> Spec.isCompliant f.
Proof.
  unfold Decide.isCompliant, Spec.isCompliant, Spec.conditionSet.
  rewrite orb_true_iff. split.
  - intros [H | H].
    + apply arraySatisfies_decides in H as (l & Hl & Hs). eauto.
    + destruct (Spec.arrayProperty f "groups") as [groups|] eqn:Hg; [|discriminate].
      apply existsb_exists in H as (g & Hin & Hgs).
      apply groupSatisfies_decides in Hgs as [Ho (cj & l & Hc & Hand & Hl & Hs)].
      exists l. split; [right; exists groups, g, cj|]; auto 10.
  - intros (l & [Hl | (groups & g & cj & Hg & Hin & Ho & Hc & Hand & Hl)] & Hs).
    + left. apply arraySatisfies_decides. eauto.
    + right. rewrite Hg. apply existsb_exists. exists g. split; [exact Hin|].
      apply groupSatisfies_decides. eauto 10.
Qed.

Lemma queryCompliant_decides q :
  Decide.queryCompliant q = true <-> Spec.queryCompliant q.
Proof.
  unfold Decide.queryCompliant, Spec.queryCompliant. split.
  - destruct (Spec.filterOf q) as [f|]; [|discriminate].
    intros H. exists f. split; [reflexivity | now apply isCompliant_decides].
  - intros (f & -> & H). now apply isCompliant_decides.
Qed.

(** X14.  Where no object literal of the query has a spread element, the
    validator is the specification's criterion.  For every entity-query
    object [q] in a well-formed tree whose object literals hold key-value
    properties only, with the filter literal [f] at [q.__args.filter]: the
    validator returns a boolean, and that boolean is [true] exactly when
    [f] is compliant, that is, when some condition set of [f] (its own
    top-level [conditions], or the [conditions] of a group whose
    [conjunction] is the literal "AND") has an element naming field
    "status" and an element naming field "dental_laboratory". *)
Theorem structural_validator_iff_compliant q f :
  estree q = true -> spread_free q = true ->
  Spec.filterOf q = Some f ->
  exists verdict,
    evaluates (hasRequiredConditions q) (Normal (Bool verdict))
    /\ (verdict = true <-> Spec.isCompliant f).
Proof.
  intros Hwf Hsf Hf. exists (Decide.queryCompliant q). split.
  - apply hasRequiredConditions_evaluates. now split.
  - unfold Decide.queryCompliant. rewrite Hf. apply isCompliant_decides.
Qed.

End Validator.

(** Scenario 1 of the specification: both fields at top level. *)
Lemma structural_validator_witness :
  exists verdict,
    evaluates (RequireEntityQueryConditions.hasRequiredConditions
                 (Examples.entityQuery Examples.filter_top_level))
              (Normal (Bool verdict))
    /\ (verdict = true <-> Spec.isCompliant Examples.filter_top_level).
Proof.
  apply (structural_validator_iff_compliant
           (Examples.entityQuery Examples.filter_top_level)
           Examples.filter_top_level); reflexivity.
Defined.

(** C1.  The validator does not return [true] on every compliant filter.
    In [{ __args: { filter: { conditions: [{ ...base, field: 'status' },
    { field: 'dental_laboratory' }] } } }] the tree is well-formed, the
    filter is found at [__args.filter], and it is compliant: its top-level
    [conditions] hold an element naming field "status" and an element
    naming field "dental_laboratory".  The first element starts with a
    spread element, which has no [key]; [prop.key.type] inside
    [condition.properties.find(...)] is a property read on [undefined], and
    the validator ends in a [TypeError] instead of the verdict [true]. *)
Theorem compliant_filter_with_spread_makes_validator_throw :
  estree Examples.entityQuery_with_spread_condition = true
  /\ Spec.filterOf Examples.entityQuery_with_spread_condition
     = Some Examples.filter_with_spread_condition
  /\ Spec.isCompliant Examples.filter_with_spread_condition
  /\ evaluates (RequireEntityQueryConditions.hasRequiredConditions
                  Examples.entityQuery_with_spread_condition)
               (Throw TypeError).
Proof.
  split; [reflexivity|]. split; [reflexivity|]. split.
  - apply isCompliant_decides. reflexivity.
  - intros s. reflexivity.
Qed.

(** C2.  The validator and the condition-set check do throw.  An object
    literal with a spread element is a well-formed tree; its [SpreadElement]
    entry has no [key], so [prop.key.type] inside [properties.find(...)] is
    a property read on [undefined].  The validator, the condition-set check
    and the [Property] callback that calls the validator all end in a
    [TypeError] instead of a verdict; so does the validator on every object
    literal that starts with a spread element. *)
Theorem spread_element_makes_validator_throw :
  (estree Examples.entityQuery_with_spread = true
   /\ evaluates (RequireEntityQueryConditions.hasRequiredConditions
                   Examples.entityQuery_with_spread) (Throw TypeError))
  /\ (estree Examples.conditions_with_spread = true
      /\ evaluates (RequireEntityQueryConditions.conditionsArrayHasRequired
                      Examples.conditions_with_spread) (Throw TypeError))
  /\ (estree Examples.property_with_spread = true
      /\ evaluates (RequireEntityQueryConditions.Property
                      (Examples.route [] []) Examples.property_with_spread)
                   (Throw TypeError))
  /\ (forall argument rest,
        evaluates (RequireEntityQueryConditions.hasRequiredConditions
                     (ESTree.ObjectExpression
                        (ESTree.SpreadElement argument :: rest)))
                  (Throw TypeError)).
Proof. repeat split; try reflexivity; intros; intros s; reflexivity. Qed.

(* ===================================================================== *)
(** ** The validator keeps no state *)
(* ===================================================================== *)

Section Purity.
Import RequireEntityQueryConditions.

Lemma pure_ret {A} (a : A) : pure (ret a).
Proof. exists (Normal a). intros s; reflexivity. Qed.

Lemma pure_throw {A} e : pure (@throw A e).
Proof. exists (Throw e). intros s; reflexivity. Qed.

Lemma pure_bind {A B} (m : M A) (f : A -> M B) :
  pure m -> (forall a, pure (f a)) -> pure (bind m f).
Proof.
  intros [[a|e] Hm] Hf.
  - destruct (Hf a) as [r Hr]. exists r. now apply (evaluates_bind m f a).
  - exists (Throw e). now apply evaluates_bind_throw.
Qed.

Lemma pure_get v k : pure (get v k).
Proof. destruct v; simpl; first [apply pure_ret | apply pure_throw]. Qed.

Lemma pure_find_loop p l : (forall x, pure (p x)) -> pure (find_loop p l).
Proof.
  intros Hp. induction l as [|x l IH]; simpl; [apply pure_ret|].
  apply pure_bind; [apply Hp|]. intros r. destruct (truthy r); [apply pure_ret|exact IH].
Qed.

Lemma pure_some_loop {A} (p : A -> M value) l :
  (forall x, pure (p x)) -> pure (some_loop p l).
Proof.
  intros Hp. induction l as [|x l IH]; simpl; [apply pure_ret|].
  apply pure_bind; [apply Hp|]. intros r. destruct (truthy r); [apply pure_ret|exact IH].
Qed.

Lemma pure_array_find arr p :
  pure arr -> (forall x, pure (p x)) -> pure (array_find arr p).
Proof.
  intros Ha Hp. apply pure_bind; [exact Ha|].
  intros a; destruct a; first [apply pure_throw | now apply pure_find_loop].
Qed.

Lemma pure_array_some arr p :
  pure arr -> (forall x, pure (p x)) -> pure (array_some arr p).
Proof.
  intros Ha Hp. apply pure_bind; [exact Ha|].
  intros a; destruct a; first [apply pure_throw | now apply pure_some_loop].
Qed.

Ltac purity :=
  repeat first
    [ apply pure_ret | apply pure_throw | apply pure_get
    | apply pure_array_find; [|intros ?]
    | apply pure_array_some; [|intros ?]
    | apply pure_bind; [|intros ?]
    | match goal with |- pure (if ?b then _ else _) => destruct b end
    | progress unfold andM, orM, notM, seqM, sneM, dot, isArray ].

Lemma pure_keyIs name prop : pure (keyIs name prop).
Proof. unfold keyIs. purity. Qed.

Lemma pure_conditionNames name c : pure (conditionNames name c).
Proof. unfold conditionNames. purity; apply pure_keyIs. Qed.

Lemma pure_conditionsArrayHasRequired c : pure (conditionsArrayHasRequired c).
Proof. unfold conditionsArrayHasRequired. purity; apply pure_conditionNames. Qed.

Lemma pure_groupHasRequired g : pure (groupHasRequired g).
Proof.
  unfold groupHasRequired.
  purity; first [apply pure_keyIs | apply pure_conditionsArrayHasRequired].
Qed.

Lemma pure_hasRequiredConditions node : pure (hasRequiredConditions node).
Proof.
  unfold hasRequiredConditions.
  purity; first [apply pure_keyIs | apply pure_conditionsArrayHasRequired
                | apply pure_groupHasRequired].
Qed.

(** C8.  For every node, of any shape, the validator has one outcome: the
    same verdict (or the same failure) whatever has been reported before,
    and it leaves the sink untouched, so calling it twice in a row on the
    same literal yields the same result twice. *)
Theorem validator_has_no_hidden_state node :
  exists outcome,
    (forall s, hasRequiredConditions node s = (outcome, s))
    /\ (forall s,
          (first <- hasRequiredConditions node ;;
           second <- hasRequiredConditions node ;;
           ret (first, second)) s
          = (match outcome with
             | Normal verdict => Normal (verdict, verdict)
             | Throw e => Throw e
             end, s)).
Proof.
  destruct (pure_hasRequiredConditions node) as [r Hr]. exists r.
  split; [exact Hr|]. intros s. unfold bind, ret. rewrite Hr.
  destruct r; [now rewrite Hr | reflexivity].
Qed.

End Purity.

(* ===================================================================== *)
(** ** The callbacks of require-entity-query-conditions *)
(* ===================================================================== *)

Section Handlers.
Import RequireEntityQueryConditions.

Lemma Property_run ctx node :
  estree node = true ->
  Spec.isNamedProperty node "entityQuery" = true ->
  Spec.isObjectLiteral (prop_of node p_value) = true ->
  spread_free (prop_of node p_value) = true ->
  reports (Property ctx node) Undefined
          (if Decide.queryCompliant (prop_of node p_value)
           then [] else [Diagnostic node message]).
Proof.
  intros Hwf Hn Ho Hsf s.
  assert (Hv : evaluates (hasRequiredConditions (prop_of node p_value))
                 (Normal (Bool (Decide.queryCompliant (prop_of node p_value)))))
    by (apply hasRequiredConditions_evaluates; split; auto; now apply everywhere_prop).
  unfold Spec.isNamedProperty in Hn.
  apply andb_true_iff in Hn as [Hn Hname]. apply andb_true_iff in Hn as [Ht Hid].
  destruct (property_entry node Ht Hwf) as (ps & kps & vps & -> & Hk & Hval).
  unfold Property, isEntityQuery. run. rewrite Hk in *. simpl in *.
  rewrite Ht, Hid. simpl. rewrite Hname. simpl. rewrite Hval in *. simpl.
  rewrite Ho. simpl. rewrite Hv. simpl.
  destruct (Decide.queryCompliant (Object vps)); simpl;
    [now rewrite app_nil_r | reflexivity].
Qed.

Lemma namesEntityQuery_evaluates e :
  is_node e = true ->
  exists r, evaluates (namesEntityQuery e) (Normal r)
            /\ truthy r = Spec.keyNamed "entityQuery" e.
Proof.
  intros Hn. apply is_node_object in Hn as [ps ->].
  unfold Spec.keyNamed. simpl.
  destruct (truthy (own_property p_key ps)) eqn:Hk.
  - exists (Bool (str_eq (prop_of (own_property p_key ps) p_name) "entityQuery")).
    split; [|reflexivity]. intros s. unfold namesEntityQuery. run. rewrite Hk.
    destruct (own_property p_key ps); try discriminate; reflexivity.
  - exists (own_property p_key ps). split.
    + intros s. unfold namesEntityQuery. run. now rewrite Hk.
    + rewrite Hk. destruct (own_property p_key ps); try discriminate; reflexivity.
Qed.

Lemma estree_nodes t v k ts :
  estree v = true -> has_type t v = true ->
  In (k, K_nodes ts) (production t grammar) ->
  exists l, prop_of v k = Array l /\
    forall e, In e l -> is_node e = true /\ estree e = true.
Proof.
  intros Hwf Ht Hin.
  pose proof (estree_production t v k _ Hwf Ht Hin) as Hc.
  apply conforms_nodes in Hc as (l & Hl & Hall). exists l. split; [exact Hl|].
  intros e He. split; [apply (Hall e He)|].
  apply (everywhere_elem _ l); auto. rewrite <- Hl. now apply everywhere_prop.
Qed.

Lemma estree_node t v k :
  estree v = true -> has_type t v = true ->
  In (k, K_node) (production t grammar) ->
  exists ps, prop_of v k = Object ps.
Proof.
  intros Hwf Ht Hin.
  pose proof (estree_production t v k _ Hwf Ht Hin) as Hc.
  now apply is_node_object in Hc.
Qed.

Lemma VariableDeclarator_run ctx node call p :
  estree node = true ->
  has_type "VariableDeclarator" node = true ->
  Spec.destructures (prop_of node p_id) "entityQuery" = true ->
  Spec.awaitedCall (prop_of node p_init) = Some call ->
  Spec.member (Spec.firstArgument call) "entityQuery" = Some p ->
  spread_free (prop_of p p_value) = true ->
  reports (VariableDeclarator ctx node) Undefined
          (if Decide.queryCompliant (prop_of p p_value)
           then [] else [Diagnostic node message]).
Proof.
  intros Hwf Ht Hd Hcall Hm Hsf s.
  (* the pattern *)
  unfold Spec.destructures in Hd. apply andb_true_iff in Hd as [Hpat Hex].
  assert (Hwfid : estree (prop_of node p_id) = true) by now apply everywhere_prop.
  destruct (estree_nodes "ObjectPattern" _ p_properties _ Hwfid Hpat ltac:(in_production))
    as (pl & Hpl & Hplall).
  unfold Spec.entries in Hex. rewrite Hpl in Hex.
  assert (Hsome : evaluates (some_loop namesEntityQuery pl) (Normal (Bool true))).
  { rewrite <- Hex. apply some_loop_evaluates. intros e He.
    apply namesEntityQuery_evaluates, (Hplall e He). }
  (* the initializer *)
  unfold Spec.awaitedCall in Hcall.
  destruct (has_type "AwaitExpression" (prop_of node p_init)) eqn:Hawait; [|discriminate].
  destruct (has_type "CallExpression" (prop_of (prop_of node p_init) p_argument))
    eqn:Hcallty; [|discriminate].
  injection Hcall as <-.
  set (init := prop_of node p_init) in *. set (call := prop_of init p_argument) in *.
  assert (Hwfcall : estree call = true) by (unfold call, init; now do 2 apply everywhere_prop).
  destruct (estree_nodes "CallExpression" _ p_arguments _ Hwfcall Hcallty
              ltac:(in_production)) as (al & Hal & Halall).
  (* the first argument *)
  unfold Spec.member in Hm.
  destruct (Spec.isObjectLiteral (Spec.firstArgument call)) eqn:Harg; [|discriminate].
  unfold Spec.firstArgument in Hm, Harg. rewrite Hal in Hm, Harg.
  destruct al as [|arg al]; [discriminate|]. simpl in Hm, Harg.
  destruct (Halall arg (or_introl eq_refl)) as [_ Hwfarg].
  destruct (estree_nodes "ObjectExpression" _ p_properties _ Hwfarg Harg
              ltac:(in_production)) as (el & Hel & Helall).
  unfold Spec.entries in Hm. rewrite Hel in Hm.
  assert (Hfind : evaluates (find_loop namesEntityQuery el) (Normal p)).
  { pose proof (find_loop_evaluates namesEntityQuery (Spec.keyNamed "entityQuery") el) as H.
    rewrite Hm in H. apply H. intros e He.
    apply namesEntityQuery_evaluates, (Helall e He). }
  apply find_some in Hm as [Hpin _].
  destruct (Helall p Hpin) as [Hpnode Hwfp].
  assert (Hv : evaluates (hasRequiredConditions (prop_of p p_value))
                 (Normal (Bool (Decide.queryCompliant (prop_of p p_value)))))
    by (apply hasRequiredConditions_evaluates; split; auto; now apply everywhere_prop).
  (* running the callback *)
  destruct (has_type_object _ _ Ht) as (ps & -> & _).
  destruct (has_type_object _ _ Hpat) as (ips & Hid & _).
  destruct (has_type_object _ _ Hawait) as (nps & Hinit & _).
  destruct (has_type_object _ _ Hcallty) as (cps & Hc & _).
  destruct (has_type_object _ _ Harg) as (aps & -> & _).
  apply is_node_object in Hpnode as [pps ->].
  unfold call, init in *. clear call init.
  unfold VariableDeclarator, array_some, array_find, length_positive, index0. run.
  rewrite Hid in *. simpl in *. rewrite Hpat, Hpl. simpl. rewrite (Hsome s). simpl.
  rewrite Hinit in *. simpl in *. rewrite Hawait. simpl.
  rewrite Hc in *. simpl in *. rewrite Hcallty, Hal. simpl.
  rewrite Harg. simpl. rewrite Hel. rewrite (Hfind s). simpl.
  rewrite (Hv s). simpl.
  destruct (Decide.queryCompliant (own_property p_value pps)); simpl;
    [now rewrite app_nil_r | reflexivity].
Qed.

(** The callbacks under any outcome of the validator, on any query object. *)
Lemma Property_follows ctx node r :
  estree node = true ->
  Spec.isNamedProperty node "entityQuery" = true ->
  Spec.isObjectLiteral (prop_of node p_value) = true ->
  evaluates (hasRequiredConditions (prop_of node p_value)) r ->
  follows node message (Property ctx node) r.
Proof.
  intros Hwf Hn Ho Hv.
  unfold Spec.isNamedProperty in Hn.
  apply andb_true_iff in Hn as [Hn Hname]. apply andb_true_iff in Hn as [Ht Hid].
  destruct (property_entry node Ht Hwf) as (ps & kps & vps & -> & Hk & Hval).
  destruct r as [x|e]; intros s;
  unfold Property, isEntityQuery; run; rewrite Hk in *; simpl in *;
  rewrite Ht, Hid; simpl; rewrite Hname; simpl; rewrite Hval in *; simpl;
  rewrite Ho; simpl; rewrite Hv; simpl; [|reflexivity].
  destruct (truthy x); simpl; [now rewrite app_nil_r | reflexivity].
Qed.

Lemma VariableDeclarator_follows ctx node call p r :
  estree node = true ->
  has_type "VariableDeclarator" node = true ->
  Spec.destructures (prop_of node p_id) "entityQuery" = true ->
  Spec.awaitedCall (prop_of node p_init) = Some call ->
  Spec.member (Spec.firstArgument call) "entityQuery" = Some p ->
  evaluates (hasRequiredConditions (prop_of p p_value)) r ->
  follows node message (VariableDeclarator ctx node) r.
Proof.
  intros Hwf Ht Hd Hcall Hm Hv.
  (* the pattern *)
  unfold Spec.destructures in Hd. apply andb_true_iff in Hd as [Hpat Hex].
  assert (Hwfid : estree (prop_of node p_id) = true) by now apply everywhere_prop.
  destruct (estree_nodes "ObjectPattern" _ p_properties _ Hwfid Hpat ltac:(in_production))
    as (pl & Hpl & Hplall).
  unfold Spec.entries in Hex. rewrite Hpl in Hex.
  assert (Hsome : evaluates (some_loop namesEntityQuery pl) (Normal (Bool true))).
  { rewrite <- Hex. apply some_loop_evaluates. intros e He.
    apply namesEntityQuery_evaluates, (Hplall e He). }
  (* the initializer *)
  unfold Spec.awaitedCall in Hcall.
  destruct (has_type "AwaitExpression" (prop_of node p_init)) eqn:Hawait; [|discriminate].
  destruct (has_type "CallExpression" (prop_of (prop_of node p_init) p_argument))
    eqn:Hcallty; [|discriminate].
  injection Hcall as <-.
  set (init := prop_of node p_init) in *. set (call := prop_of init p_argument) in *.
  assert (Hwfcall : estree call = true) by (unfold call, init; now do 2 apply everywhere_prop).
  destruct (estree_nodes "CallExpression" _ p_arguments _ Hwfcall Hcallty
              ltac:(in_production)) as (al & Hal & Halall).
  (* the first argument *)
  unfold Spec.member in Hm.
  destruct (Spec.isObjectLiteral (Spec.firstArgument call)) eqn:Harg; [|discriminate].
  unfold Spec.firstArgument in Hm, Harg. rewrite Hal in Hm, Harg.
  destruct al as [|arg al]; [discriminate|]. simpl in Hm, Harg.
  destruct (Halall arg (or_introl eq_refl)) as [_ Hwfarg].
  destruct (estree_nodes "ObjectExpression" _ p_properties _ Hwfarg Harg
              ltac:(in_production)) as (el & Hel & Helall).
  unfold Spec.entries in Hm. rewrite Hel in Hm.
  assert (Hfind : evaluates (find_loop namesEntityQuery el) (Normal p)).
  { pose proof (find_loop_evaluates namesEntityQuery (Spec.keyNamed "entityQuery") el) as H.
    rewrite Hm in H. apply H. intros e He.
    apply namesEntityQuery_evaluates, (Helall e He). }
  apply find_some in Hm as [Hpin _].
  destruct (Helall p Hpin) as [Hpnode Hwfp].
  (* running the callback *)
  destruct (has_type_object _ _ Ht) as (ps & -> & _).
  destruct (has_type_object _ _ Hpat) as (ips & Hid & _).
  destruct (has_type_object _ _ Hawait) as (nps & Hinit & _).
  destruct (has_type_object _ _ Hcallty) as (cps & Hc & _).
  destruct (has_type_object _ _ Harg) as (aps & -> & _).
  apply is_node_object in Hpnode as [pps ->].
  unfold call, init in *. clear call init.
  destruct r as [x|e]; intros s;
  unfold VariableDeclarator, array_some, array_find, length_positive, index0; run;
  rewrite Hid in *; simpl in *; rewrite Hpat, Hpl; simpl; rewrite (Hsome s); simpl;
  rewrite Hinit in *; simpl in *; rewrite Hawait; simpl;
  rewrite Hc in *; simpl in *; rewrite Hcallty, Hal; simpl;
  rewrite Harg; simpl; rewrite Hel; rewrite (Hfind s); simpl;
  rewrite (Hv s); simpl; [|reflexivity].
  destruct (truthy x); simpl; [now rewrite app_nil_r | reflexivity].
Qed.

End Handlers.

Section EntityQuery.
Import RequireEntityQueryConditions.

(** X15.  Where no object literal of the query [q] has a spread element,
    the rule reports on a triggering node exactly one diagnostic, on that
    node, if and only if the filter at [entityQuery.__args.filter] is not
    compliant; in particular it reports when the descent finds no filter.
    The two triggering forms: a [Property] keyed [entityQuery] whose value
    is an object literal [q]; and a variable binding that destructures
    [entityQuery] from an awaited call whose first argument is an object
    literal with an [entityQuery] entry of value [q].  The tree is
    well-formed and the object literals of [q] hold key-value properties
    only. *)
Theorem entity_query_reported_iff_not_compliant ctx node :
  estree node = true ->
  (Spec.isNamedProperty node "entityQuery" = true ->
   Spec.isObjectLiteral (prop_of node p_value) = true ->
   spread_free (prop_of node p_value) = true ->
   (Spec.queryCompliant (prop_of node p_value) ->
    reports (Property ctx node) Undefined [])
   /\ (~ Spec.queryCompliant (prop_of node p_value) ->
       reports (Property ctx node) Undefined [Diagnostic node message])
   /\ (Spec.filterOf (prop_of node p_value) = None ->
       reports (Property ctx node) Undefined [Diagnostic node message]))
  /\ (forall call p,
        has_type "VariableDeclarator" node = true ->
        Spec.destructures (prop_of node p_id) "entityQuery" = true ->
        Spec.awaitedCall (prop_of node p_init) = Some call ->
        Spec.member (Spec.firstArgument call) "entityQuery" = Some p ->
        spread_free (prop_of p p_value) = true ->
        (Spec.queryCompliant (prop_of p p_value) ->
         reports (VariableDeclarator ctx node) Undefined [])
        /\ (~ Spec.queryCompliant (prop_of p p_value) ->
            reports (VariableDeclarator ctx node) Undefined [Diagnostic node message])
        /\ (Spec.filterOf (prop_of p p_value) = None ->
            reports (VariableDeclarator ctx node) Undefined [Diagnostic node message])).
Proof.
  intros Hwf.
  assert (Hnone : forall q, Spec.filterOf q = None -> ~ Spec.queryCompliant q)
    by (intros q Hq (f & Hf & _); congruence).
  split.
  - intros Hn Ho Hsf.
    destruct (reports_by_verdict _ _ _ _ _
                (queryCompliant_decides (prop_of node p_value))
                (Property_run ctx node Hwf Hn Ho Hsf)) as [H1 H2].
    repeat split; auto.
  - intros call p Ht Hd Hc Hm Hsf.
    destruct (reports_by_verdict _ _ _ _ _
                (queryCompliant_decides (prop_of p p_value))
                (VariableDeclarator_run ctx node call p Hwf Ht Hd Hc Hm Hsf))
      as [H1 H2].
    repeat split; auto.
Qed.

(** Scenario 2 of the specification, and a binding whose query has no
    filter. *)
Lemma entity_query_reported_witness :
  reports (Property (Examples.route [] []) Examples.property_incomplete) Undefined
          [Diagnostic Examples.property_incomplete message]
  /\ reports (VariableDeclarator (Examples.route [] [])
                                 Examples.declarator_without_filter) Undefined
             [Diagnostic Examples.declarator_without_filter message].
Proof.
  split.
  - refine (proj1 (proj2 (proj1 (entity_query_reported_iff_not_compliant
              (Examples.route [] []) Examples.property_incomplete eq_refl)
              eq_refl eq_refl eq_refl)) _).
    intros H. apply queryCompliant_decides in H. discriminate H.
  - refine (proj2 (proj2 (proj2 (entity_query_reported_iff_not_compliant
              (Examples.route [] []) Examples.declarator_without_filter eq_refl)
              _ _ eq_refl eq_refl eq_refl eq_refl eq_refl)) eq_refl).
Defined.

(** C3.  The rule does not report every triggering node whose filter is
    not compliant.  Both [entityQuery: { ...defaults }] and
    [const { entityQuery } = await query({ entityQuery: { ...defaults } })]
    are well-formed triggering nodes, and the descent finds no filter at
    [entityQuery.__args.filter].  The only entry of the query object is a
    spread element, which has no [key]; [prop.key.type] inside
    [node.properties.find(...)] is a property read on [undefined], so the
    validator fails and with it the callback: it ends in a [TypeError] and
    leaves the sink as it was, without the diagnostic. *)
Theorem spread_only_query_makes_callbacks_throw :
  (estree Examples.property_only_spread = true
   /\ Spec.isNamedProperty Examples.property_only_spread "entityQuery" = true
   /\ Spec.isObjectLiteral (prop_of Examples.property_only_spread p_value) = true
   /\ Spec.filterOf (prop_of Examples.property_only_spread p_value) = None
   /\ (forall ctx,
         evaluates (Property ctx Examples.property_only_spread)
                   (Throw TypeError)))
  /\ (estree Examples.declarator_only_spread = true
      /\ has_type "VariableDeclarator" Examples.declarator_only_spread = true
      /\ Spec.destructures (prop_of Examples.declarator_only_spread p_id)
                           "entityQuery" = true
      /\ (exists call,
            Spec.awaitedCall (prop_of Examples.declarator_only_spread p_init)
            = Some call
            /\ Spec.member (Spec.firstArgument call) "entityQuery"
               = Some Examples.property_only_spread)
      /\ (forall ctx,
            evaluates (VariableDeclarator ctx Examples.declarator_only_spread)
                      (Throw TypeError))).
Proof.
  repeat split; try reflexivity.
  eexists. split; reflexivity.
Qed.
End EntityQuery.

(* ===================================================================== *)
(** ** Rule no-direct-scss-imports *)
(* ===================================================================== *)

Lemma import_source node :
  estree node = true -> has_type "ImportDeclaration" node = true ->
  exists ps src,
    node = Object ps /\ own_property p_source ps = Object src /\
    own_property p_value src = Str (Spec.importedPath node).
Proof.
  intros Hwf Ht.
  assert (Hc : conforms K_string_literal (prop_of node p_source) = true)
    by (apply (estree_production "ImportDeclaration"); auto; in_production).
  destruct (has_type_object _ _ Ht) as (ps & -> & _).
  unfold conforms in Hc. apply andb_true_iff in Hc as [Hl Hv].
  apply has_type_object in Hl as (src & Hsrc & _).
  exists ps, src. unfold Spec.importedPath. simpl in *. rewrite Hsrc in *.
  simpl in *. destruct (own_property p_value src); try discriminate. auto.
Qed.

(** C7.  For every import declaration the rule reports one diagnostic, on
    the declaration, if the imported path ends in ".scss" or ".css", and
    reports nothing for any other path. *)
Theorem scss_import_reported_iff_stylesheet_suffix ctx node :
  estree node = true -> has_type "ImportDeclaration" node = true ->
  (Spec.hasSuffix (Spec.importedPath node) ".scss"
   \/ Spec.hasSuffix (Spec.importedPath node) ".css" ->
   reports (NoDirectScssImports.ImportDeclaration ctx node) Undefined
           [Diagnostic node NoDirectScssImports.message])
  /\ (~ (Spec.hasSuffix (Spec.importedPath node) ".scss"
         \/ Spec.hasSuffix (Spec.importedPath node) ".css") ->
      reports (NoDirectScssImports.ImportDeclaration ctx node) Undefined []).
Proof.
  intros Hwf Ht.
  destruct (import_source node Hwf Ht) as (ps & src & -> & Hsrc & Hval).
  set (path := Spec.importedPath (Object ps)) in *.
  rewrite <- !string_endsWith_spec.
  assert (Hrun : forall s,
    NoDirectScssImports.ImportDeclaration ctx (Object ps) s =
    if string_endsWith path ".scss" || string_endsWith path ".css"
    then (Normal Undefined, s ++ [Diagnostic (Object ps) NoDirectScssImports.message])
    else (Normal Undefined, s)).
  { intros s. unfold NoDirectScssImports.ImportDeclaration, dot, orM, endsWith, bind, get, ret.
    rewrite Hsrc, Hval. 
    destruct (string_endsWith path ".scss"); simpl; [reflexivity|].
    destruct (string_endsWith path ".css"); reflexivity. }
  split.
  - intros H s. rewrite Hrun. 
    destruct H as [-> | ->]; simpl; [reflexivity | now rewrite orb_true_r].
  - intros H s. rewrite Hrun, app_nil_r.
    destruct (string_endsWith path ".scss"); [exfalso; auto|].
    destruct (string_endsWith path ".css"); [exfalso; auto|]. reflexivity.
Qed.

(** Scenario 4 of the specification. *)
Lemma scss_import_witness :
  reports (NoDirectScssImports.ImportDeclaration (Examples.route [] [])
             (ESTree.ImportDeclaration "./x.scss")) Undefined
          [Diagnostic (ESTree.ImportDeclaration "./x.scss") NoDirectScssImports.message]
  /\ reports (NoDirectScssImports.ImportDeclaration (Examples.route [] [])
                (ESTree.ImportDeclaration "./x.ts")) Undefined [].
Proof.
  split.
  - apply (proj1 (scss_import_reported_iff_stylesheet_suffix
                    (Examples.route [] []) (ESTree.ImportDeclaration "./x.scss")
                    eq_refl eq_refl)).
    left. exists "./x". reflexivity.
  - apply (proj2 (scss_import_reported_iff_stylesheet_suffix
                    (Examples.route [] []) (ESTree.ImportDeclaration "./x.ts")
                    eq_refl eq_refl)).
    rewrite <- !string_endsWith_spec. intros [H | H]; discriminate H.
Defined.

(* ===================================================================== *)
(** ** Rule require-generic-props *)
(* ===================================================================== *)

Lemma CallExpression_run ctx call :
  estree call = true -> has_type "CallExpression" call = true ->
  Spec.calleeIs "component$" call = true ->
  reports (RequireGenericProps.CallExpression ctx call) Undefined
    (if Decide.genericProps call
     then [Diagnostic call RequireGenericProps.message] else []).
Proof.
  intros Hwf Ht Hc s.
  assert (Hargs : conforms (K_nodes []) (prop_of call p_arguments) = true)
    by (apply (estree_production "CallExpression"); auto; in_production).
  apply conforms_nodes in Hargs as (args & Hargs & Hnodes).
  assert (Hnodes' : forall e, In e args -> is_node e = true)
    by (intros e He; apply (Hnodes e He)).
  pose proof (everywhere_prop _ _ p_arguments Hwf) as Hwfa. rewrite Hargs in Hwfa.
  unfold Decide.genericProps, Spec.firstArgument, Spec.lacksTypeArguments.
  rewrite Hargs.
  destruct (has_type_object _ _ Ht) as (ps & -> & Hty).
  unfold Spec.calleeIs in Hc. apply andb_true_iff in Hc as [Hc1 Hc2].
  destruct (has_type_object _ _ Hc1) as (cps & Hcallee & Hcty).
  simpl in Hcallee, Hargs, Hc2 |- *. 
  unfold RequireGenericProps.CallExpression, andM, seqM, dot, index0, notM, length_positive, bind, get, ret.
  rewrite Hcallee in *. simpl in Hc2. unfold str_eq at 1. rewrite Hcty. simpl.
  rewrite Hc2. rewrite Hargs. simpl.
  destruct args as [|a args]; simpl.
  - rewrite andb_false_r, app_nil_r. reflexivity.
  - destruct (is_node_object a (Hnodes' a (or_introl eq_refl))) as [aps ->]. simpl.
    unfold Spec.isArrowFunction, has_type, Spec.declaresParameter. simpl.
    destruct (str_eq (own_property p_type aps) "ArrowFunctionExpression") eqn:Harrow; simpl.
    2:{ rewrite andb_false_r, app_nil_r. reflexivity. }
    assert (Hwfe : estree (Object aps) = true)
      by (apply (everywhere_elem _ _ _ Hwfa); now left).
    assert (Hp : conforms (K_nodes []) (prop_of (Object aps) p_params) = true)
      by (apply (estree_production "ArrowFunctionExpression"); auto; in_production).
    apply conforms_nodes in Hp as (params & Hp & _). simpl in Hp. rewrite Hp.
    destruct params as [|p params]; simpl.
    + rewrite andb_false_r, app_nil_r. reflexivity.
    + rewrite !andb_true_r.
      destruct (truthy (own_property p_typeParameters ps)); simpl;
        [now rewrite app_nil_r | reflexivity].
Qed.

Section GenericProps.
Import RequireGenericProps.

(** C4 fails as stated: [component$(function (props) {})] has no type
    arguments and its function-expression argument declares a parameter,
    yet nothing is reported. *)
Lemma generic_props_ignores_function_expression :
  ~ (reports (CallExpression (Examples.route [] []) Examples.component_function)
             Undefined [Diagnostic Examples.component_function message]
     <-> Spec.lacksTypeArguments Examples.component_function = true
         /\ Spec.isFunctionExpression
              (Spec.firstArgument Examples.component_function) = true
         /\ Spec.declaresParameter
              (Spec.firstArgument Examples.component_function) = true).
Proof.
  intros [_ H]. specialize (H (conj eq_refl (conj eq_refl eq_refl)) []).
  discriminate H.
Qed.

(** C4, as the code has it.  For every call whose callee is the
    identifier [component$], the rule reports one diagnostic, on the call,
    if and only if the call has no type arguments and its first argument
    is an arrow function expression that declares at least one parameter;
    a call whose first argument declares no parameter is never reported,
    with or without type arguments. *)
Theorem generic_props_reported_iff_untyped_arrow_with_parameter ctx call :
  estree call = true -> has_type "CallExpression" call = true ->
  Spec.calleeIs "component$" call = true ->
  (Spec.lacksTypeArguments call = true
   /\ Spec.isArrowFunction (Spec.firstArgument call) = true
   /\ Spec.declaresParameter (Spec.firstArgument call) = true ->
   reports (CallExpression ctx call) Undefined [Diagnostic call message])
  /\ (~ (Spec.lacksTypeArguments call = true
         /\ Spec.isArrowFunction (Spec.firstArgument call) = true
         /\ Spec.declaresParameter (Spec.firstArgument call) = true) ->
      reports (CallExpression ctx call) Undefined [])
  /\ (Spec.declaresParameter (Spec.firstArgument call) = false ->
      reports (CallExpression ctx call) Undefined []).
Proof.
  intros Hwf Ht Hc. pose proof (CallExpression_run ctx call Hwf Ht Hc) as Hrun.
  unfold Decide.genericProps in Hrun.
  destruct (Spec.lacksTypeArguments call), (Spec.isArrowFunction (Spec.firstArgument call)),
    (Spec.declaresParameter (Spec.firstArgument call)); simpl in Hrun;
    repeat split; try exact (fun _ => Hrun); try (intros (? & ? & ?); discriminate);
    try discriminate; intros H; exfalso; apply H; auto.
Qed.

(** Scenario 6 of the specification: [component$((props) => ...)]. *)
Lemma generic_props_witness :
  reports (CallExpression (Examples.route [] []) Examples.component_arrow)
          Undefined [Diagnostic Examples.component_arrow message].
Proof.
  apply (proj1 (generic_props_reported_iff_untyped_arrow_with_parameter
                  (Examples.route [] []) Examples.component_arrow
                  eq_refl eq_refl eq_refl)).
  repeat split.
Defined.
End GenericProps.

(* ===================================================================== *)
(** ** Rule require-document-head *)
(* ===================================================================== *)

Section DocumentHead.
Context {engine : RegExpEngine}.
Import RequireDocumentHead.

Lemma declarations_only_in_variable_declaration v :
  estree v = true -> is_node v = true ->
  has_type "VariableDeclaration" v = true \/ prop_of v p_declarations = Undefined.
Proof.
  intros Hwf Hn. destruct (is_node_object v Hn) as [ps ->].
  apply everywhere_here in Hwf. unfold node_shape in Hwf.
  unfold is_node in Hn. unfold has_type, str_eq. simpl in *.
  destruct (own_property p_type ps); try discriminate.
  apply andb_true_iff in Hwf as [_ H]. apply orb_true_iff in H as [H|H]; [now left|].
  right. now destruct (own_property p_declarations ps).
Qed.

Lemma isHeadArrow_evaluates d :
  estree d = true -> has_type "VariableDeclarator" d = true ->
  exists r, evaluates (isHeadArrow d) (Normal r)
            /\ truthy r = Decide.headBinding Spec.isArrowFunction d.
Proof.
  intros Hwf Ht. unfold Decide.headBinding, Spec.isArrowFunction.
  destruct (estree_node _ _ p_id Hwf Ht ltac:(in_production)) as [ips Hid].
  assert (Hinit : conforms K_opt_node (prop_of d p_init) = true)
    by (apply (estree_production "VariableDeclarator"); auto; in_production).
  destruct (has_type_object _ _ Ht) as (ps & -> & _).
  simpl in Hid, Hinit |- *. rewrite Hid. simpl.
  destruct (str_eq (own_property p_name ips) "head") eqn:Hname; simpl.
  2:{ exists (Bool false). split; [|reflexivity]. intros s.
      unfold isHeadArrow. run. rewrite Hid. simpl. now rewrite Hname. }
  destruct (own_property p_init ps) as [| | | | | |nps] eqn:Hi; try discriminate.
  - exists Null. split; [|reflexivity]. intros s.
    unfold isHeadArrow. run. rewrite Hid. simpl. rewrite Hname. simpl.
    now rewrite Hi.
  - exists (Bool (has_type "ArrowFunctionExpression" (Object nps))).
    split; [|reflexivity]. intros s.
    unfold isHeadArrow. run. rewrite Hid. simpl. rewrite Hname. simpl.
    now rewrite Hi.
Qed.

Lemma isHeadExport_evaluates stmt :
  estree stmt = true -> is_node stmt = true ->
  exists r, evaluates (isHeadExport stmt) (Normal r)
            /\ truthy r = existsb (Decide.headBinding Spec.isArrowFunction)
                                  (Spec.exportedBindings stmt).
Proof.
  intros Hwf Hn. unfold Spec.exportedBindings.
  destruct (has_type "ExportNamedDeclaration" stmt) eqn:Ht.
  2:{ exists (Bool false). split; [|reflexivity]. intros s.
      apply is_node_object in Hn as [ps ->].
      unfold isHeadExport. run. now rewrite Ht. }
  assert (Hd : conforms K_opt_node (prop_of stmt p_declaration) = true)
    by (apply (estree_production "ExportNamedDeclaration"); auto; in_production).
  assert (Hwfd : estree (prop_of stmt p_declaration) = true) by now apply everywhere_prop.
  destruct (has_type_object _ _ Ht) as (ps & -> & _). simpl in Hd, Hwfd |- *.
  destruct (own_property p_declaration ps) as [| | | | | |dps] eqn:Hdecl; try discriminate.
  { exists Null. split; [|reflexivity]. intros s.
    unfold isHeadExport. run. rewrite Ht. simpl. now rewrite Hdecl. }
  destruct (declarations_only_in_variable_declaration _ Hwfd Hd) as [Hvd | Hnone].
  - destruct (estree_nodes "VariableDeclaration" _ p_declarations _ Hwfd Hvd
                ltac:(in_production)) as (dl & Hdl & Hall).
    assert (Hty : forall e, In e dl -> has_type "VariableDeclarator" e = true).
    { pose proof (estree_production _ _ p_declarations _ Hwfd Hvd
                    ltac:(in_production)) as Hc.
      apply conforms_nodes in Hc as (dl' & Hdl' & Hall').
      rewrite Hdl in Hdl'. injection Hdl' as <-.
      intros e He. destruct (Hall' e He) as [_ [Hnil | Hex]]; [discriminate|].
      simpl in Hex. now rewrite orb_false_r in Hex. }
    simpl in Hdl |- *. rewrite Hdl.
    exists (Bool (existsb (Decide.headBinding Spec.isArrowFunction) dl)).
    split; [|reflexivity]. intros s.
    unfold isHeadExport, array_some. run. rewrite Ht. simpl. rewrite Hdecl. simpl.
    rewrite Hdl. simpl. apply some_loop_evaluates. intros e He.
    apply isHeadArrow_evaluates; [apply (Hall e He) | now apply Hty].
  - simpl in Hnone |- *. rewrite Hnone.
    exists Undefined. split; [|reflexivity]. intros s.
    unfold isHeadExport. run. rewrite Ht. simpl. rewrite Hdecl. simpl.
    now rewrite Hnone.
Qed.

Lemma Program_run ctx node :
  estree (ast ctx) = true -> has_type "Program" (ast ctx) = true ->
  reports (Program ctx node) Undefined
          (if Decide.exportsHead Spec.isArrowFunction (Spec.body ctx)
           then [] else [Diagnostic node message]).
Proof.
  intros Hwf Ht s.
  destruct (estree_nodes "Program" _ p_body _ Hwf Ht ltac:(in_production))
    as (body & Hbody & Hall).
  unfold Decide.exportsHead, Spec.body. rewrite Hbody.
  assert (Hsome : evaluates (array_some (get (ast ctx) p_body) isHeadExport)
            (Normal (Bool (existsb
               (fun stmt => existsb (Decide.headBinding Spec.isArrowFunction)
                                    (Spec.exportedBindings stmt)) body)))).
  { apply array_some_evaluates.
    - rewrite <- Hbody. apply evaluates_get.
      apply has_type_object in Ht as (ps & -> & _). reflexivity.
    - intros e He. apply isHeadExport_evaluates; apply (Hall e He). }
  unfold Program, bind. rewrite Hsome. run.
  destruct (existsb _ body); simpl; [now rewrite app_nil_r | reflexivity].
Qed.

Lemma exportsHead_decides accepted body :
  Decide.exportsHead accepted body = true <-> Spec.exportsHead accepted body.
Proof.
  unfold Decide.exportsHead, Spec.exportsHead, Decide.headBinding. split.
  - intros H. apply existsb_exists in H as (stmt & Hin & H).
    apply existsb_exists in H as (d & Hd & H). apply andb_true_iff in H as [H1 H2].
    exists stmt, d. auto.
  - intros (stmt & d & Hin & Hd & H1 & H2).
    apply existsb_exists. exists stmt. split; [exact Hin|].
    apply existsb_exists. exists d. split; [exact Hd|]. now rewrite H1, H2.
Qed.

Lemma isExcluded_no_match path patterns :
  forallb Spec.compiles patterns = true ->
  existsb (Spec.matches path) patterns = false ->
  evaluates (isExcluded path patterns) (Normal (Bool false)).
Proof.
  unfold isExcluded. induction patterns as [|p l IH]; intros Hc Hm s; [reflexivity|].
  simpl in *. apply andb_true_iff in Hc as [Hp Hl].
  apply orb_false_iff in Hm as [Hmp Hml].
  unfold bind, RegExp_matches. unfold Spec.compiles, Spec.matches in Hp, Hmp.
  destruct (RegExp_new p); [|discriminate]. unfold ret. simpl. rewrite Hmp.
  now apply IH.
Qed.

Lemma isExcluded_match path pre p post :
  forallb Spec.compiles pre = true ->
  Spec.matches path p = true ->
  evaluates (isExcluded path (pre ++ p :: post)) (Normal (Bool true)).
Proof.
  unfold isExcluded. intros Hc Hm. induction pre as [|q pre IH]; intros s; simpl in *.
  - unfold bind, RegExp_matches. unfold Spec.matches in Hm.
    destruct (RegExp_new p); [|discriminate]. unfold ret. simpl. now rewrite Hm.
  - apply andb_true_iff in Hc as [Hq Hpre].
    unfold bind, RegExp_matches. unfold Spec.compiles in Hq.
    destruct (RegExp_new q); [|discriminate]. unfold ret. simpl.
    destruct (RegExp_test r path); [reflexivity | now apply IH].
Qed.

Lemma isExcluded_syntax_error path pre p post :
  forallb Spec.compiles pre = true ->
  existsb (Spec.matches path) pre = false ->
  Spec.compiles p = false ->
  evaluates (isExcluded path (pre ++ p :: post)) (Throw SyntaxError).
Proof.
  unfold isExcluded. intros Hc Hm Hp. induction pre as [|q pre IH]; intros s; simpl in *.
  - unfold bind, RegExp_matches. unfold Spec.compiles in Hp.
    destruct (RegExp_new p); [discriminate | reflexivity].
  - apply andb_true_iff in Hc as [Hq Hpre].
    apply orb_false_iff in Hm as [Hmq Hmpre].
    unfold bind, RegExp_matches. unfold Spec.compiles, Spec.matches in Hq, Hmq.
    destruct (RegExp_new q); [|discriminate]. unfold ret. simpl. rewrite Hmq.
    now apply IH.
Qed.

Lemma isExcluded_hit path patterns :
  existsb (Spec.matches path) patterns = true ->
  evaluates (isExcluded path patterns) (Normal (Bool true))
  \/ evaluates (isExcluded path patterns) (Throw SyntaxError).
Proof.
  unfold isExcluded. induction patterns as [|p l IH]; intros Hm; [discriminate|].
  simpl in Hm. unfold Spec.matches in Hm at 1.
  destruct (RegExp_new p) as [re|] eqn:Hp.
  - destruct (RegExp_test re path) eqn:Ht.
    + left. intros s. simpl. unfold bind, RegExp_matches. rewrite Hp.
      unfold ret. simpl. now rewrite Ht.
    + destruct (IH Hm) as [H | H]; [left | right]; intros s; simpl;
        unfold bind, RegExp_matches; rewrite Hp; unfold ret; simpl; rewrite Ht;
        apply H.
  - right. intros s. simpl. unfold bind, RegExp_matches. now rewrite Hp.
Qed.

Lemma create_unfold ctx :
  create ctx =
  (If isExcluded (getFilename ctx) (Spec.patterns ctx)
   Then ret ∅
   Else ret {[ "Program" := Program ctx ]}).
Proof.
  unfold create, isExcluded, Spec.patterns.
  destruct (options ctx) as [|o rest]; [reflexivity|].
  destruct (excludedFiles o); reflexivity.
Qed.

Lemma traverse_empty nodes :
  evaluates (traverse ∅ nodes) (Normal Undefined).
Proof.
  induction nodes as [|n nodes IH]; intros s; [reflexivity|].
  simpl. unfold bind.
  assert (Hv : visit ∅ n s = (Normal Undefined, s)).
  { unfold visit. destruct n; try reflexivity.
    destruct (own_property p_type props); reflexivity. }
  rewrite Hv. apply IH.
Qed.

Lemma visit_other_kind kind callback node :
  has_type kind node = false ->
  evaluates (visit {[ kind := callback ]} node) (Normal Undefined).
Proof.
  intros Ht s. unfold visit. destruct node; try reflexivity.
  unfold has_type in Ht. simpl in Ht.
  destruct (own_property p_type props) as [| | | |t| |]; try reflexivity.
  unfold str_eq in Ht. apply String.eqb_neq in Ht.
  rewrite lookup_singleton_ne by congruence. reflexivity.
Qed.

Lemma traverse_other_kinds kind callback nodes :
  Forall (fun n => has_type kind n = false) nodes ->
  evaluates (traverse {[ kind := callback ]} nodes) (Normal Undefined).
Proof.
  induction 1 as [|n nodes Hn _ IH]; intros s; [reflexivity|].
  simpl. unfold bind. rewrite (visit_other_kind kind callback n Hn). apply IH.
Qed.

Lemma isExcluded_all_compile path patterns :
  forallb Spec.compiles patterns = true ->
  evaluates (isExcluded path patterns)
            (Normal (Bool (existsb (Spec.matches path) patterns))).
Proof.
  unfold isExcluded. induction patterns as [|p l IH]; intros Hc s; [reflexivity|].
  simpl in *. apply andb_true_iff in Hc as [Hp Hl].
  unfold bind, RegExp_matches. unfold Spec.compiles, Spec.matches in *.
  destruct (RegExp_new p); [|discriminate]. unfold ret. simpl.
  destruct (RegExp_test r path); [reflexivity | now apply IH].
Qed.

Lemma create_evaluates ctx b :
  evaluates (isExcluded (getFilename ctx) (Spec.patterns ctx)) (Normal (Bool b)) ->
  evaluates (create ctx)
            (Normal (if b then ∅ else {[ "Program" := Program ctx ]})).
Proof.
  intros Hs s. rewrite create_unfold. unfold bind. rewrite Hs. simpl.
  destruct b; reflexivity.
Qed.

Lemma lint_not_excluded ctx rest :
  estree (ast ctx) = true -> has_type "Program" (ast ctx) = true ->
  forallb Spec.compiles (Spec.patterns ctx) = true ->
  existsb (Spec.matches (getFilename ctx)) (Spec.patterns ctx) = false ->
  Forall (fun n => has_type "Program" n = false) rest ->
  reports (lint create ctx (ast ctx :: rest)) Undefined
          (if Decide.exportsHead Spec.isArrowFunction (Spec.body ctx)
           then [] else [Diagnostic (ast ctx) message]).
Proof.
  intros Hwf Ht Hc Hm Hrest.
  pose proof (create_evaluates ctx false (isExcluded_no_match _ _ Hc Hm)) as Hcreate.
  simpl in Hcreate. unfold lint.
  eapply reports_bind; [exact Hcreate|]. simpl.
  eapply reports_then; [|now apply traverse_other_kinds].
  destruct (has_type_object _ _ Ht) as (ps & Hast & Hty).
  unfold visit. rewrite Hast, Hty, lookup_singleton_eq. rewrite <- Hast.
  now apply Program_run.
Qed.

(** C5, as the code has it.  For every file that no pattern excludes, the
    rule reports exactly one diagnostic, on the root node, if and only if
    the top-level sequence has no named export binding [head] whose
    initializer is an arrow function expression; with such an export it
    reports nothing.  [rest] is whatever else the host visits. *)
Theorem document_head_reported_iff_no_arrow_head_export ctx rest :
  estree (ast ctx) = true -> has_type "Program" (ast ctx) = true ->
  forallb Spec.compiles (Spec.patterns ctx) = true ->
  existsb (Spec.matches (getFilename ctx)) (Spec.patterns ctx) = false ->
  Forall (fun n => has_type "Program" n = false) rest ->
  (~ Spec.exportsHead Spec.isArrowFunction (Spec.body ctx) ->
   reports (lint create ctx (ast ctx :: rest)) Undefined
           [Diagnostic (ast ctx) message])
  /\ (Spec.exportsHead Spec.isArrowFunction (Spec.body ctx) ->
      reports (lint create ctx (ast ctx :: rest)) Undefined []).
Proof.
  intros Hwf Ht Hc Hm Hrest.
  destruct (reports_by_verdict _ _ _ _ _
              (exportsHead_decides Spec.isArrowFunction (Spec.body ctx))
              (lint_not_excluded ctx rest Hwf Ht Hc Hm Hrest)) as [H1 H2].
  split; assumption.
Qed.

(** C9.  Only an arrow function is accepted as the initializer of [head]:
    a file in which every exported binding named [head] has some other
    initializer (a [function] expression, say) is reported, and so is a
    file that exports a function declaration named [head], which is no
    binding at all. *)
Theorem head_export_must_be_arrow_function ctx rest :
  estree (ast ctx) = true -> has_type "Program" (ast ctx) = true ->
  forallb Spec.compiles (Spec.patterns ctx) = true ->
  existsb (Spec.matches (getFilename ctx)) (Spec.patterns ctx) = false ->
  Forall (fun n => has_type "Program" n = false) rest ->
  (forall stmt d,
     In stmt (Spec.body ctx) -> In d (Spec.exportedBindings stmt) ->
     str_eq (prop_of (prop_of d p_id) p_name) "head" = true ->
     Spec.isArrowFunction (prop_of d p_init) = false) ->
  reports (lint create ctx (ast ctx :: rest)) Undefined
          [Diagnostic (ast ctx) message].
Proof.
  intros Hwf Ht Hc Hm Hrest Hall.
  pose proof (lint_not_excluded ctx rest Hwf Ht Hc Hm Hrest) as Hrun.
  destruct (Decide.exportsHead Spec.isArrowFunction (Spec.body ctx)) eqn:E;
    [|exact Hrun].
  apply exportsHead_decides in E as (stmt & d & Hin & Hd & Hname & Harrow).
  rewrite (Hall stmt d Hin Hd Hname) in Harrow. discriminate.
Qed.

(** C6.  With an empty or absent pattern list the exclusion check is
    false and [create] registers the [Program] callback.  For a file whose
    path matches some configured pattern no callback is registered and no
    diagnostic is reported, whatever the file holds: [create] returns the
    empty table, or fails on an invalid pattern listed before the match,
    and it returns the empty table whenever the patterns before the match
    are valid. *)
Theorem exclusion_filter ctx :
  (options ctx = []
   \/ (exists o rest, options ctx = o :: rest
                      /\ (excludedFiles o = None \/ excludedFiles o = Some [])) ->
   evaluates (isExcluded (getFilename ctx) (Spec.patterns ctx)) (Normal (Bool false))
   /\ evaluates (create ctx) (Normal {[ "Program" := Program ctx ]}))
  /\ (existsb (Spec.matches (getFilename ctx)) (Spec.patterns ctx) = true ->
      (evaluates (create ctx) (Normal ∅)
       \/ evaluates (create ctx) (Throw SyntaxError))
      /\ forall nodes s, snd (lint create ctx nodes s) = s)
  /\ (forall pre p post,
        Spec.patterns ctx = pre ++ p :: post ->
        forallb Spec.compiles pre = true ->
        Spec.matches (getFilename ctx) p = true ->
        evaluates (create ctx) (Normal ∅)
        /\ forall nodes, evaluates (lint create ctx nodes) (Normal Undefined)).
Proof.
  assert (Hempty : evaluates (create ctx) (Normal ∅) ->
                   forall nodes, evaluates (lint create ctx nodes) (Normal Undefined)).
  { intros Hcreate nodes. unfold lint.
    eapply evaluates_bind; [exact Hcreate | apply traverse_empty]. }
  split; [|split].
  - intros H.
    assert (Hp : Spec.patterns ctx = []).
    { unfold Spec.patterns.
      destruct H as [-> | (o & rest & -> & [-> | ->])]; reflexivity. }
    assert (Hs : evaluates (isExcluded (getFilename ctx) (Spec.patterns ctx))
                           (Normal (Bool false)))
      by (rewrite Hp; intros s; reflexivity).
    split; [exact Hs | exact (create_evaluates ctx false Hs)].
  - intros Hm. destruct (isExcluded_hit _ _ Hm) as [Hs | Hs].
    + pose proof (create_evaluates ctx true Hs) as Hcreate.
      split; [now left|]. intros nodes s. now rewrite (Hempty Hcreate nodes s).
    + assert (Hcreate : evaluates (create ctx) (Throw SyntaxError)).
      { intros s. rewrite create_unfold. unfold bind. now rewrite Hs. }
      split; [now right|]. intros nodes s. unfold lint, bind. now rewrite Hcreate.
  - intros pre p post Hp Hc Hm.
    assert (Hcreate : evaluates (create ctx) (Normal ∅)).
    { apply (create_evaluates ctx true). rewrite Hp. now apply isExcluded_match. }
    split; [exact Hcreate | now apply Hempty].
Qed.

(** C10.  The exclusion patterns are regular expressions searched for in
    the file path, and any match excludes: when every pattern is valid,
    [create] returns the empty table exactly when some pattern's expression
    tests true on the path.  A pattern that is not valid syntax (a glob such
    as "**/x") makes [create] itself throw a [SyntaxError] when the scan
    reaches it, before any table is returned. *)
Theorem exclusion_patterns_are_regular_expressions ctx :
  (forallb Spec.compiles (Spec.patterns ctx) = true ->
   evaluates (create ctx)
     (Normal (if existsb (Spec.matches (getFilename ctx)) (Spec.patterns ctx)
              then ∅ else {[ "Program" := Program ctx ]})))
  /\ (forall pre p post,
        Spec.patterns ctx = pre ++ p :: post ->
        forallb Spec.compiles pre = true ->
        existsb (Spec.matches (getFilename ctx)) pre = false ->
        Spec.compiles p = false ->
        evaluates (create ctx) (Throw SyntaxError)).
Proof.
  split.
  - intros Hc. apply create_evaluates. now apply isExcluded_all_compile.
  - intros pre p post Hp Hc Hm Hbad s. rewrite create_unfold. unfold bind.
    rewrite Hp. now rewrite (isExcluded_syntax_error _ pre p post Hc Hm Hbad).
Qed.
End DocumentHead.

Section DocumentHeadExamples.
Import RequireDocumentHead.

(** C5 fails as stated: a route that exports
    [const head = function () {}] has a [head] export whose initializer is
    a function expression, and is reported all the same. *)
Lemma function_expression_head_is_reported :
  ~ (reports (lint (@create literal_engine) Examples.route_function_head
                   [ast Examples.route_function_head]) Undefined
             [Diagnostic (ast Examples.route_function_head) message]
     <-> ~ Spec.exportsHead Spec.isFunctionExpression
                            (Spec.body Examples.route_function_head)).
Proof.
  intros [H _]. apply H.
  - intros s. reflexivity.
  - exists (Examples.export_head (ESTree.FunctionExpression [] ESTree.BlockStatement)),
           (ESTree.VariableDeclarator (ESTree.Identifier "head")
              (ESTree.FunctionExpression [] ESTree.BlockStatement)).
    repeat split; now left.
Qed.

(** A route whose [head] is no arrow function. *)
Lemma document_head_witness :
  reports (lint (@create literal_engine) Examples.route_function_head
                [ast Examples.route_function_head]) Undefined
          [Diagnostic (ast Examples.route_function_head) message].
Proof.
  apply (proj1 (@document_head_reported_iff_no_arrow_head_export literal_engine
                  Examples.route_function_head [] eq_refl eq_refl eq_refl eq_refl
                  (List.Forall_nil _))).
  intros H. apply exportsHead_decides in H. discriminate H.
Defined.

(** [export const head = function () {}] and [export function head() {}]. *)
Lemma head_export_witness :
  reports (lint (@create literal_engine) Examples.route_function_head
                [ast Examples.route_function_head]) Undefined
          [Diagnostic (ast Examples.route_function_head) message]
  /\ reports (lint (@create literal_engine) Examples.route_declared_head
                   [ast Examples.route_declared_head]) Undefined
             [Diagnostic (ast Examples.route_declared_head) message].
Proof.
  split.
  - apply (@head_export_must_be_arrow_function literal_engine
             Examples.route_function_head [] eq_refl eq_refl eq_refl eq_refl
             (List.Forall_nil _)).
    intros stmt d [<- | []] [<- | []] _. reflexivity.
  - apply (@head_export_must_be_arrow_function literal_engine
             Examples.route_declared_head [] eq_refl eq_refl eq_refl eq_refl
             (List.Forall_nil _)).
    intros stmt d [<- | []] [].
Defined.

(** Scenario 5 of the specification: no options, and a route without
    [head] that the pattern "routes/about" excludes. *)
Lemma exclusion_filter_witness :
  evaluates (@create literal_engine (Examples.route [] []))
            (Normal {[ "Program" := Program (Examples.route [] []) ]})
  /\ (forall nodes s,
        snd (lint (@create literal_engine) Examples.route_excluded nodes s) = s)
  /\ evaluates (@create literal_engine Examples.route_excluded) (Normal ∅).
Proof.
  split; [|split].
  - apply (proj1 (@exclusion_filter literal_engine (Examples.route [] []))).
    now left.
  - apply (proj1 (proj2 (@exclusion_filter literal_engine Examples.route_excluded))).
    reflexivity.
  - apply (proj2 (proj2 (@exclusion_filter literal_engine Examples.route_excluded))
                 ["layout"] "routes/about" []); reflexivity.
Defined.

(** A valid pattern list, and the globs of the README. *)
Lemma exclusion_patterns_witness :
  evaluates (@create literal_engine Examples.route_excluded) (Normal ∅)
  /\ evaluates (@create literal_engine Examples.route_globs) (Throw SyntaxError).
Proof.
  split.
  - apply (proj1 (@exclusion_patterns_are_regular_expressions literal_engine
                    Examples.route_excluded) eq_refl).
  - apply (proj2 (@exclusion_patterns_are_regular_expressions literal_engine
                    Examples.route_globs)
                 [] "**/exclude-this-file.ts" ["**/exclude-this-directory/**"]);
      reflexivity.
Defined.
End DocumentHeadExamples.

(* ===================================================================== *)
(** ** Every callback adds at most one diagnostic *)
(* ===================================================================== *)

Lemma pure_length_positive m : pure m -> pure (length_positive m).
Proof.
  intros Hm. apply pure_bind; [exact Hm|].
  intros v; destruct v; first [apply pure_ret | apply pure_throw].
Qed.

Lemma pure_index0 m : pure m -> pure (index0 m).
Proof.
  intros Hm. apply pure_bind; [exact Hm|].
  intros v; destruct v as [| | | |str| |]; try destruct str;
    first [apply pure_ret | apply pure_throw].
Qed.

Lemma pure_endsWith m suffix : pure m -> pure (endsWith m suffix).
Proof.
  intros Hm. apply pure_bind; [exact Hm|].
  intros v; destruct v; first [apply pure_ret | apply pure_throw].
Qed.

(** Purity of an expression built from the combinators. *)
Ltac pure_expr :=
  repeat first
    [ apply pure_ret | apply pure_throw | apply pure_get
    | apply pure_hasRequiredConditions
    | apply pure_length_positive | apply pure_index0 | apply pure_endsWith
    | apply pure_array_find; [|intros ?]
    | apply pure_array_some; [|intros ?]
    | apply pure_bind; [|intros ?]
    | match goal with |- pure (if ?b then _ else _) => destruct b end
    | progress unfold andM, orM, notM, seqM, sneM, dot, isArray ].

Lemma at_most_one_pure node message m :
  pure m -> reports_at_most_one node message m.
Proof.
  intros [r Hr] s. exists r, []. rewrite app_nil_r. split; [apply Hr | now left].
Qed.

Lemma at_most_one_report node message :
  reports_at_most_one node message (report node message).
Proof. intros s. exists (Normal Undefined), [Diagnostic node message]. auto. Qed.

Lemma at_most_one_bind {A} node message (m : M A) (f : A -> M value) :
  pure m -> (forall a, reports_at_most_one node message (f a)) ->
  reports_at_most_one node message (bind m f).
Proof.
  intros [[a|e] Hm] Hf s; unfold bind; rewrite Hm.
  - apply Hf.
  - exists (Throw e), []. rewrite app_nil_r. auto.
Qed.

(** A callback: conditions without effect, then [report] or nothing. *)
Ltac at_most_one :=
  repeat first
    [ apply at_most_one_report
    | apply at_most_one_pure; solve [pure_expr]
    | apply at_most_one_bind; [solve [pure_expr] | intros ?]
    | match goal with
      | |- reports_at_most_one _ _ (if ?b then _ else _) => destruct b
      end ].

(** X1.  Whatever node a callback of any of the rules is handed, of any
    shape, and whether it returns or throws: what was reported before stays
    in place, in order, and at most one diagnostic is added, which is on
    the node handed in and carries the rule's message. *)
Theorem callbacks_report_at_most_once ctx node :
  reports_at_most_one node NoDirectScssImports.message
    (NoDirectScssImports.ImportDeclaration ctx node)
  /\ reports_at_most_one node RequireDocumentHead.message
       (RequireDocumentHead.Program ctx node)
  /\ reports_at_most_one node RequireEntityQueryConditions.message
       (RequireEntityQueryConditions.Property ctx node)
  /\ reports_at_most_one node RequireEntityQueryConditions.message
       (RequireEntityQueryConditions.VariableDeclarator ctx node)
  /\ reports_at_most_one node RequireGenericProps.message
       (RequireGenericProps.CallExpression ctx node)
  /\ reports_at_most_one node RequireGenericPropsEarlier.message
       (RequireGenericPropsEarlier.CallExpression ctx node).
Proof.
  repeat split.
  - unfold NoDirectScssImports.ImportDeclaration. at_most_one.
  - unfold RequireDocumentHead.Program. at_most_one.
  - unfold RequireEntityQueryConditions.Property,
      RequireEntityQueryConditions.isEntityQuery. at_most_one.
  - unfold RequireEntityQueryConditions.VariableDeclarator. at_most_one.
  - unfold RequireGenericProps.CallExpression. at_most_one.
  - unfold RequireGenericPropsEarlier.CallExpression. at_most_one.
Qed.

(* ===================================================================== *)
(** ** The validator at its edges *)
(* ===================================================================== *)

Section ValidatorEdges.
Import RequireEntityQueryConditions.

(** X2.  The guards of the validator: on every value that is no object
    literal ([undefined], [null], a primitive, an array, a node of another
    type) it returns [false], and so does the condition-set check on every
    value that is no array, and on the empty array.  None of these throws. *)
Theorem validator_rejects_what_is_no_object_literal :
  (forall node, Spec.isObjectLiteral node = false ->
     evaluates (hasRequiredConditions node) (Normal (Bool false)))
  /\ (forall conditions,
        (forall l, conditions <> Array l) ->
        evaluates (conditionsArrayHasRequired conditions) (Normal (Bool false)))
  /\ evaluates (conditionsArrayHasRequired (Array [])) (Normal (Bool false)).
Proof.
  split; [|split].
  - intros node Ho. unfold hasRequiredConditions.
    eapply evaluates_bind; [now apply not_object_literal | apply evaluates_ret].
  - intros c Hc s. destruct c as [| |[|]|n|str|l|ps]; try reflexivity.
    + unfold conditionsArrayHasRequired. run. now destruct (n =? 0)%Z.
    + unfold conditionsArrayHasRequired. run. now destruct (str =? "")%string.
    + now destruct (Hc l).
  - intros s. reflexivity.
Qed.

Lemma validator_rejects_witness :
  evaluates (hasRequiredConditions (ESTree.Identifier "entityQuery"))
            (Normal (Bool false))
  /\ evaluates (conditionsArrayHasRequired Undefined) (Normal (Bool false)).
Proof.
  split.
  - apply (proj1 validator_rejects_what_is_no_object_literal). reflexivity.
  - apply (proj1 (proj2 validator_rejects_what_is_no_object_literal)).
    intros l H. discriminate H.
Defined.

(** X3.  The condition-set check looks for each required field anywhere
    in the array: if it accepts [l], it accepts every array that holds the
    elements of [l], in whatever order and among whatever other conditions
    (arrays of well-formed, spread-free elements). *)
Theorem more_conditions_keep_the_requirement l l' :
  plain (Array l) -> plain (Array l') ->
  (forall c, In c l -> In c l') ->
  evaluates (conditionsArrayHasRequired (Array l)) (Normal (Bool true)) ->
  evaluates (conditionsArrayHasRequired (Array l')) (Normal (Bool true)).
Proof.
  intros Hp Hp' Hincl Hl.
  pose proof (conditionsArrayHasRequired_evaluates l Hp) as H.
  pose proof (conditionsArrayHasRequired_evaluates l' Hp') as H'.
  assert (Hd : Decide.satisfiesRequirement l = true).
  { specialize (H []). rewrite (Hl []) in H. now injection H as <-. }
  assert (Hd' : Decide.satisfiesRequirement l' = true).
  { apply satisfiesRequirement_decides. apply satisfiesRequirement_decides in Hd.
    destruct Hd as [(c1 & H1 & N1) (c2 & H2 & N2)].
    split; [exists c1 | exists c2]; auto. }
  now rewrite Hd' in H'.
Qed.

Lemma more_conditions_witness :
  evaluates (conditionsArrayHasRequired
               (Array [Examples.condition "x" "y";
                       Examples.condition "dental_laboratory" "X";
                       Examples.condition "status" "open"]))
            (Normal (Bool true)).
Proof.
  apply (more_conditions_keep_the_requirement
           [Examples.condition "status" "open";
            Examples.condition "dental_laboratory" "X"]).
  - split; reflexivity.
  - split; reflexivity.
  - intros c [<- | [<- | []]]; simpl; auto.
  - intros s. reflexivity.
Defined.

End ValidatorEdges.

Section ShortCircuit.
Import RequireEntityQueryConditions.




End ShortCircuit.

(* ===================================================================== *)
(** ** What triggers the callbacks of require-entity-query-conditions *)
(* ===================================================================== *)

Section Triggers.
Import RequireEntityQueryConditions.

(** X5.  The [Property] callback reports nothing on a node that is not a
    property keyed by the identifier [entityQuery] (another type of node,
    another name, a quoted key), nor on one whose value is no object
    literal. *)
Theorem property_callback_ignores_other_properties ctx node :
  estree node = true -> is_node node = true ->
  Spec.isNamedProperty node "entityQuery" = false
  \/ Spec.isObjectLiteral (prop_of node p_value) = false ->
  reports (Property ctx node) Undefined [].
Proof.
  intros Hwf Hn Hcase. apply evaluates_reports. intros s.
  destruct (is_node_object node Hn) as [ps ->].
  destruct (has_type "Property" (Object ps)) eqn:Ht.
  2:{ unfold Property, isEntityQuery. run. now rewrite Ht. }
  destruct (property_entry _ Ht Hwf) as (ps' & kps & vps & E & Hk & Hv).
  injection E as <-.
  unfold Spec.isNamedProperty in Hcase. rewrite Ht in Hcase. simpl in Hcase.
  unfold Property, isEntityQuery. run. rewrite Ht, Hk in *. simpl in *.
  destruct (str_eq (own_property p_type kps) "Identifier"); simpl in *;
    [|reflexivity].
  destruct (str_eq (own_property p_name kps) "entityQuery"); simpl in *;
    [|reflexivity].
  rewrite Hv in *. simpl in *.
  destruct Hcase as [Hc | Hc]; [discriminate | now rewrite Hc].
Qed.

Lemma property_callback_witness :
  reports (Property (Examples.route [] [])
             (ESTree.Property (ESTree.string "entityQuery")
                (Examples.entityQuery Examples.filter_group_incomplete)))
          Undefined [].
Proof.
  apply property_callback_ignores_other_properties; try reflexivity.
  now left.
Defined.

(** X6.  The [VariableDeclarator] callback reports nothing on a binding
    that is not of the triggering form: the pattern does not destructure
    [entityQuery], or the initializer is absent or is no awaited call (a
    call that is not awaited is not checked), or the call has no first
    argument that is an object literal with an [entityQuery] entry. *)
Theorem binding_callback_ignores_other_bindings ctx node :
  estree node = true -> has_type "VariableDeclarator" node = true ->
  Shape.triggeringEntry node = None ->
  reports (VariableDeclarator ctx node) Undefined [].
Proof.
  intros Hwf Ht Hnone. apply evaluates_reports.
  destruct (estree_node _ _ p_id Hwf Ht ltac:(in_production)) as [ips Hid].
  assert (Hinit : conforms K_opt_node (prop_of node p_init) = true)
    by (apply (estree_production "VariableDeclarator"); auto; in_production).
  assert (Hwfid : estree (prop_of node p_id) = true) by now apply everywhere_prop.
  assert (Hwfinit : estree (prop_of node p_init) = true) by now apply everywhere_prop.
  destruct (has_type_object _ _ Ht) as (ps & -> & _).
  unfold Shape.triggeringEntry, Spec.destructures in Hnone.
  simpl in Hid, Hinit, Hwfid, Hwfinit, Hnone.
  rewrite Hid in *.
  (* the pattern *)
  destruct (has_type "ObjectPattern" (Object ips)) eqn:Hpat; simpl in Hnone.
  2:{ intros s. unfold VariableDeclarator. run. rewrite Hid. simpl.
      now rewrite Hpat. }
  destruct (estree_nodes "ObjectPattern" _ p_properties _ Hwfid Hpat
              ltac:(in_production)) as (pl & Hpl & Hplall).
  unfold Spec.entries in Hnone. rewrite Hpl in Hnone.
  assert (Hsome : evaluates (some_loop namesEntityQuery pl)
                    (Normal (Bool (existsb (Spec.keyNamed "entityQuery") pl)))).
  { apply some_loop_evaluates. intros e He.
    apply namesEntityQuery_evaluates, (Hplall e He). }
  destruct (existsb (Spec.keyNamed "entityQuery") pl) eqn:Hex.
  2:{ intros s. unfold VariableDeclarator, array_some. run. rewrite Hid. simpl.
      rewrite Hpat. simpl in *. rewrite Hpl. simpl. now rewrite (Hsome s). }
  (* the initializer *)
  unfold Spec.awaitedCall in Hnone.
  destruct (own_property p_init ps) as [| | | | | |nps] eqn:Hi; try discriminate.
  { intros s. unfold VariableDeclarator, array_some. run. rewrite Hid. simpl.
    rewrite Hpat. simpl in *. rewrite Hpl. simpl. rewrite (Hsome s). simpl.
    now rewrite Hi. }
  destruct (has_type "AwaitExpression" (Object nps)) eqn:Hawait.
  2:{ intros s. unfold VariableDeclarator, array_some. run. rewrite Hid. simpl.
      rewrite Hpat. simpl in *. rewrite Hpl. simpl. rewrite (Hsome s). simpl.
      rewrite Hi. simpl. now rewrite Hawait. }
  destruct (estree_node _ _ p_argument Hwfinit Hawait ltac:(in_production))
    as [cps Hc].
  simpl in Hc. simpl in Hnone. rewrite Hc in Hnone.
  assert (Hwfcall : estree (Object cps) = true).
  { rewrite <- Hc. change (own_property p_argument nps)
      with (prop_of (Object nps) p_argument). now apply everywhere_prop. }
  destruct (has_type "CallExpression" (Object cps)) eqn:Hcallty.
  2:{ intros s. unfold VariableDeclarator, array_some. run. rewrite Hid. simpl.
      rewrite Hpat. simpl in *. rewrite Hpl. simpl. rewrite (Hsome s). simpl.
      rewrite Hi. simpl. rewrite Hawait. simpl. rewrite Hc. simpl.
      now rewrite Hcallty. }
  destruct (estree_nodes "CallExpression" _ p_arguments _ Hwfcall Hcallty
              ltac:(in_production)) as (al & Hal & Halall).
  unfold Spec.member, Spec.firstArgument in Hnone. rewrite Hal in Hnone.
  simpl in Hal.
  destruct al as [|arg al].
  { intros s. unfold VariableDeclarator, array_some, length_positive. run.
    rewrite Hid. simpl.
    rewrite Hpat. simpl in *. rewrite Hpl. simpl. rewrite (Hsome s). simpl.
    rewrite Hi. simpl. rewrite Hawait. simpl. rewrite Hc. simpl.
    rewrite Hcallty. simpl. now rewrite Hal. }
  destruct (Halall arg (or_introl eq_refl)) as [Hargn Hwfarg].
  destruct (is_node_object arg Hargn) as [aps ->]. simpl in Hnone.
  destruct (Spec.isObjectLiteral (Object aps)) eqn:Harg.
  2:{ intros s. unfold VariableDeclarator, array_some, length_positive, index0. run.
      rewrite Hid. simpl.
      rewrite Hpat. simpl in *. rewrite Hpl. simpl. rewrite (Hsome s). simpl.
      rewrite Hi. simpl. rewrite Hawait. simpl. rewrite Hc. simpl.
      rewrite Hcallty. simpl. rewrite Hal. simpl. now rewrite Harg. }
  destruct (estree_nodes "ObjectExpression" _ p_properties _ Hwfarg Harg
              ltac:(in_production)) as (el & Hel & Helall).
  unfold Spec.entries in Hnone. rewrite Hel in Hnone.
  assert (Hfind : evaluates (find_loop namesEntityQuery el) (Normal Undefined)).
  { pose proof (find_loop_evaluates namesEntityQuery (Spec.keyNamed "entityQuery") el) as H.
    rewrite Hnone in H. apply H. intros e He.
    apply namesEntityQuery_evaluates, (Helall e He). }
  intros s. unfold VariableDeclarator, array_some, array_find, length_positive, index0.
  run. rewrite Hid. simpl.
  rewrite Hpat. simpl in *. rewrite Hpl. simpl. rewrite (Hsome s). simpl.
  rewrite Hi. simpl. rewrite Hawait. simpl. rewrite Hc. simpl.
  rewrite Hcallty. simpl. rewrite Hal. simpl. rewrite Harg. simpl.
  rewrite Hel. now rewrite (Hfind s).
Qed.

Lemma binding_callback_witness :
  reports (VariableDeclarator (Examples.route [] [])
             (ESTree.VariableDeclarator
                (ESTree.ObjectPattern
                   [ESTree.field "entityQuery" (ESTree.Identifier "entityQuery")])
                (ESTree.CallExpression (ESTree.Identifier "query")
                   [ESTree.ObjectExpression
                      [ESTree.field "entityQuery"
                         (Examples.entityQuery Examples.filter_group_incomplete)]])))
          Undefined [].
Proof. apply binding_callback_ignores_other_bindings; reflexivity. Defined.

Lemma estree_first_argument call :
  estree call = true -> estree (Spec.firstArgument call) = true.
Proof.
  intros Hwf. unfold Spec.firstArgument.
  pose proof (everywhere_prop _ _ p_arguments Hwf) as H.
  destruct (prop_of call p_arguments) as [| | | | |l|]; try reflexivity.
  destruct l as [|a l]; [reflexivity|]. apply (everywhere_elem _ (a :: l)); auto.
  now left.
Qed.

Lemma estree_member o name p :
  estree o = true -> Spec.member o name = Some p -> estree p = true.
Proof.
  intros Hwf Hm. unfold Spec.member in Hm.
  destruct (Spec.isObjectLiteral o); [|discriminate].
  apply find_some in Hm as [Hin _]. unfold Spec.entries in Hin.
  pose proof (everywhere_prop _ _ p_properties Hwf) as H.
  destruct (prop_of o p_properties) as [| | | | |l|]; try now destruct Hin.
  now apply (everywhere_elem _ l).
Qed.

(** X7.  For [const { entityQuery } = await f({ entityQuery: {...} })],
    whatever the query object holds, the two callbacks follow the one
    outcome of the validator on it and so agree: if the validator throws,
    both callbacks throw that error and report nothing; if it returns a
    truthy verdict, neither reports; if it returns a falsy one, both
    report, the one on the binding and the other on the [entityQuery]
    property of the argument. *)
Theorem both_callbacks_judge_the_same_query ctx node call p :
  estree node = true ->
  has_type "VariableDeclarator" node = true ->
  Spec.destructures (prop_of node p_id) "entityQuery" = true ->
  Spec.awaitedCall (prop_of node p_init) = Some call ->
  Spec.member (Spec.firstArgument call) "entityQuery" = Some p ->
  Spec.isNamedProperty p "entityQuery" = true ->
  Spec.isObjectLiteral (prop_of p p_value) = true ->
  exists outcome,
    evaluates (hasRequiredConditions (prop_of p p_value)) outcome
    /\ match outcome with
       | Normal verdict =>
           reports (VariableDeclarator ctx node) Undefined
                   (if truthy verdict then [] else [Diagnostic node message])
           /\ reports (Property ctx p) Undefined
                      (if truthy verdict then [] else [Diagnostic p message])
       | Throw e =>
           evaluates (VariableDeclarator ctx node) (Throw e)
           /\ evaluates (Property ctx p) (Throw e)
       end.
Proof.
  intros Hwf Ht Hd Hc Hm Hn Ho.
  destruct (pure_hasRequiredConditions (prop_of p p_value)) as [r Hr].
  exists r. split; [exact Hr|].
  pose proof (VariableDeclarator_follows ctx node call p r Hwf Ht Hd Hc Hm Hr) as H1.
  assert (Hwfp : estree p = true).
  { apply (estree_member (Spec.firstArgument call) "entityQuery"); auto.
    apply estree_first_argument.
    unfold Spec.awaitedCall in Hc.
    destruct (has_type "AwaitExpression" (prop_of node p_init)); [|discriminate].
    destruct (has_type "CallExpression" (prop_of (prop_of node p_init) p_argument));
      [|discriminate].
    injection Hc as <-. now do 2 apply everywhere_prop. }
  pose proof (Property_follows ctx p r Hwfp Hn Ho Hr) as H2.
  destruct r; split; assumption.
Qed.

Lemma both_callbacks_witness :
  exists outcome,
    evaluates (hasRequiredConditions
                 (ESTree.ObjectExpression
                    [ESTree.field "__args" (ESTree.ObjectExpression [])]))
              outcome
    /\ match outcome with
       | Normal verdict =>
           reports (VariableDeclarator (Examples.route [] [])
                      Examples.declarator_without_filter) Undefined
                   (if truthy verdict then []
                    else [Diagnostic Examples.declarator_without_filter message])
           /\ reports (Property (Examples.route [] [])
                         (ESTree.field "entityQuery"
                            (ESTree.ObjectExpression
                               [ESTree.field "__args" (ESTree.ObjectExpression [])])))
                      Undefined
                      (if truthy verdict then []
                       else [Diagnostic
                               (ESTree.field "entityQuery"
                                  (ESTree.ObjectExpression
                                     [ESTree.field "__args"
                                        (ESTree.ObjectExpression [])]))
                               message])
       | Throw e =>
           evaluates (VariableDeclarator (Examples.route [] [])
                        Examples.declarator_without_filter) (Throw e)
           /\ evaluates (Property (Examples.route [] [])
                           (ESTree.field "entityQuery"
                              (ESTree.ObjectExpression
                                 [ESTree.field "__args"
                                    (ESTree.ObjectExpression [])])))
                        (Throw e)
       end.
Proof.
  exact (both_callbacks_judge_the_same_query
           (Examples.route [] []) Examples.declarator_without_filter
           (ESTree.CallExpression (ESTree.Identifier "query")
              [ESTree.ObjectExpression
                 [ESTree.field "entityQuery"
                    (ESTree.ObjectExpression
                       [ESTree.field "__args" (ESTree.ObjectExpression [])])]])
           (ESTree.field "entityQuery"
              (ESTree.ObjectExpression
                 [ESTree.field "__args" (ESTree.ObjectExpression [])]))
           eq_refl eq_refl eq_refl eq_refl eq_refl eq_refl eq_refl).
Defined.

End Triggers.

(* ===================================================================== *)
(** ** The two revisions of require-generic-props *)
(* ===================================================================== *)

Lemma CallExpression_other_callee ctx call :
  estree call = true -> has_type "CallExpression" call = true ->
  Spec.calleeIs "component$" call = false ->
  reports (RequireGenericProps.CallExpression ctx call) Undefined []
  /\ reports (RequireGenericPropsEarlier.CallExpression ctx call) Undefined [].
Proof.
  intros Hwf Ht Hc.
  destruct (estree_node _ _ p_callee Hwf Ht ltac:(in_production)) as [cps Hcallee].
  destruct (has_type_object _ _ Ht) as (ps & -> & _).
  unfold Spec.calleeIs in Hc. simpl in Hcallee, Hc. rewrite Hcallee in Hc.
  split; apply evaluates_reports; intros s;
    unfold RequireGenericProps.CallExpression,
           RequireGenericPropsEarlier.CallExpression;
    run; rewrite Hcallee; simpl;
    destruct (str_eq (own_property p_type cps) "Identifier"); simpl in *;
    try reflexivity; now rewrite Hc.
Qed.

Lemma CallExpression_earlier_run ctx call :
  estree call = true -> has_type "CallExpression" call = true ->
  Spec.calleeIs "component$" call = true ->
  reports (RequireGenericPropsEarlier.CallExpression ctx call) Undefined
    (if Spec.lacksTypeArguments call
     then [Diagnostic call RequireGenericPropsEarlier.message] else []).
Proof.
  intros Hwf Ht Hc s.
  destruct (estree_node _ _ p_callee Hwf Ht ltac:(in_production)) as [cps Hcallee].
  destruct (has_type_object _ _ Ht) as (ps & -> & _).
  unfold Spec.calleeIs in Hc. simpl in Hcallee, Hc. rewrite Hcallee in Hc.
  apply andb_true_iff in Hc as [Hc1 Hc2].
  unfold Spec.lacksTypeArguments. simpl.
  unfold RequireGenericPropsEarlier.CallExpression. run. rewrite Hcallee. simpl.
  rewrite Hc1. simpl. rewrite Hc2. simpl.
  destruct (truthy (own_property p_typeParameters ps)); simpl;
    [now rewrite app_nil_r | reflexivity].
Qed.

(** X8.  [require-generic-props] never reports a call whose callee is
    anything but the identifier [component$]: other names and member
    callees such as [qwik.component$] pass unchecked. *)
Theorem generic_props_ignores_other_callees ctx call :
  estree call = true -> has_type "CallExpression" call = true ->
  Spec.calleeIs "component$" call = false ->
  reports (RequireGenericProps.CallExpression ctx call) Undefined [].
Proof. intros Hwf Ht Hc. apply (CallExpression_other_callee ctx call Hwf Ht Hc). Qed.

Lemma generic_props_other_callee_witness :
  reports (RequireGenericProps.CallExpression (Examples.route [] [])
             (ESTree.CallExpression
                (ESTree.node "MemberExpression" [])
                [ESTree.ArrowFunctionExpression [ESTree.Identifier "props"]
                                                ESTree.BlockStatement]))
          Undefined [].
Proof. apply generic_props_ignores_other_callees; reflexivity. Defined.

(** X9.  In the three-rule revision [require-generic-props] reports a
    call if and only if its callee is the identifier [component$] and it
    has no type arguments; the arguments of the call play no part, so a
    component without parameters is reported too. *)
Theorem earlier_generic_props_reported_iff_untyped ctx call :
  estree call = true -> has_type "CallExpression" call = true ->
  (Spec.calleeIs "component$" call = true /\ Spec.lacksTypeArguments call = true ->
   reports (RequireGenericPropsEarlier.CallExpression ctx call) Undefined
           [Diagnostic call RequireGenericPropsEarlier.message])
  /\ (~ (Spec.calleeIs "component$" call = true
         /\ Spec.lacksTypeArguments call = true) ->
      reports (RequireGenericPropsEarlier.CallExpression ctx call) Undefined []).
Proof.
  intros Hwf Ht.
  destruct (Spec.calleeIs "component$" call) eqn:Hc.
  - pose proof (CallExpression_earlier_run ctx call Hwf Ht Hc) as Hrun.
    destruct (Spec.lacksTypeArguments call); split.
    + intros _. exact Hrun.
    + intros H. exfalso. now apply H.
    + intros [_ H]. discriminate.
    + intros _. exact Hrun.
  - split; [intros [H _]; discriminate|].
    intros _. apply (CallExpression_other_callee ctx call Hwf Ht Hc).
Qed.

Lemma earlier_generic_props_witness :
  reports (RequireGenericPropsEarlier.CallExpression (Examples.route [] [])
             (ESTree.CallExpression (ESTree.Identifier "component$")
                [ESTree.ArrowFunctionExpression [] ESTree.BlockStatement]))
          Undefined
          [Diagnostic
             (ESTree.CallExpression (ESTree.Identifier "component$")
                [ESTree.ArrowFunctionExpression [] ESTree.BlockStatement])
             RequireGenericPropsEarlier.message].
Proof.
  apply (proj1 (earlier_generic_props_reported_iff_untyped
                  (Examples.route [] [])
                  (ESTree.CallExpression (ESTree.Identifier "component$")
                     [ESTree.ArrowFunctionExpression [] ESTree.BlockStatement])
                  eq_refl eq_refl)).
  split; reflexivity.
Defined.

(** X10.  The later revision of [require-generic-props] only takes
    diagnostics away: on every call it reports nothing or exactly what the
    earlier revision reports, and the two coincide when the first argument
    is an arrow function with a parameter. *)
Theorem later_generic_props_reports_less ctx call :
  estree call = true -> has_type "CallExpression" call = true ->
  exists later earlier,
    reports (RequireGenericProps.CallExpression ctx call) Undefined later
    /\ reports (RequireGenericPropsEarlier.CallExpression ctx call) Undefined earlier
    /\ (later = [] \/ later = earlier)
    /\ (Spec.isArrowFunction (Spec.firstArgument call) = true ->
        Spec.declaresParameter (Spec.firstArgument call) = true ->
        later = earlier).
Proof.
  intros Hwf Ht.
  destruct (Spec.calleeIs "component$" call) eqn:Hc.
  - exists (if Decide.genericProps call
            then [Diagnostic call RequireGenericProps.message] else []),
           (if Spec.lacksTypeArguments call
            then [Diagnostic call RequireGenericPropsEarlier.message] else []).
    split; [now apply CallExpression_run|].
    split; [now apply CallExpression_earlier_run|].
    unfold Decide.genericProps.
    destruct (Spec.lacksTypeArguments call); simpl.
    + split.
      * destruct (Spec.isArrowFunction _ && Spec.declaresParameter _); auto.
      * intros -> ->. reflexivity.
    + split; auto.
  - exists [], []. destruct (CallExpression_other_callee ctx call Hwf Ht Hc).
    repeat split; auto.
Qed.

Lemma later_generic_props_witness :
  exists later earlier,
    reports (RequireGenericProps.CallExpression (Examples.route [] [])
               Examples.component_function) Undefined later
    /\ reports (RequireGenericPropsEarlier.CallExpression (Examples.route [] [])
                  Examples.component_function) Undefined earlier
    /\ (later = [] \/ later = earlier)
    /\ (Spec.isArrowFunction (Spec.firstArgument Examples.component_function) = true ->
        Spec.declaresParameter (Spec.firstArgument Examples.component_function) = true ->
        later = earlier).
Proof.
  apply (later_generic_props_reports_less (Examples.route [] [])
           Examples.component_function); reflexivity.
Defined.

(* ===================================================================== *)
(** ** Whole files *)
(* ===================================================================== *)

Lemma reports_append {A B} (m : M A) (f : A -> M B) a b ds1 ds2 :
  reports m a ds1 -> reports (f a) b ds2 -> reports (bind m f) b (ds1 ++ ds2).
Proof. intros Hm Hf s. unfold bind. rewrite Hm, Hf. now rewrite app_assoc. Qed.

Lemma ImportDeclaration_run ctx node :
  estree node = true -> has_type "ImportDeclaration" node = true ->
  reports (NoDirectScssImports.ImportDeclaration ctx node) Undefined
          (if Shape.stylesheetImport node
           then [Diagnostic node NoDirectScssImports.message] else []).
Proof.
  intros Hwf Ht s. unfold Shape.stylesheetImport. rewrite Ht. simpl.
  destruct (import_source node Hwf Ht) as (ps & src & -> & Hsrc & Hval).
  set (path := Spec.importedPath (Object ps)) in *.
  unfold NoDirectScssImports.ImportDeclaration, dot, orM, endsWith, bind, get, ret.
  rewrite Hsrc, Hval.
  destruct (string_endsWith path ".scss"); simpl; [reflexivity|].
  destruct (string_endsWith path ".css"); simpl; [reflexivity|].
  now rewrite app_nil_r.
Qed.

Lemma visit_same_kind kind callback node :
  has_type kind node = true ->
  visit {[ kind := callback ]} node = callback node.
Proof.
  intros Ht. destruct (has_type_object _ _ Ht) as (ps & -> & Hty).
  unfold visit. now rewrite Hty, lookup_singleton_eq.
Qed.

(** X11.  Linting the nodes of a file with [no-direct-scss-imports]
    reports exactly the import declarations whose path ends in ".scss" or
    ".css", one diagnostic each, in the order they are visited; nodes of
    other kinds are not handed to the callback. *)
Theorem stylesheet_imports_are_reported_in_order ctx nodes :
  (forall n, In n nodes -> estree n = true) ->
  reports (lint NoDirectScssImports.create ctx nodes) Undefined
          (map (fun n => Diagnostic n NoDirectScssImports.message)
               (List.filter Shape.stylesheetImport nodes)).
Proof.
  intros Hwf. unfold lint, NoDirectScssImports.create.
  eapply reports_bind; [apply evaluates_ret|].
  induction nodes as [|n nodes IH]; [intros s; simpl; now rewrite app_nil_r|].
  simpl traverse.
  assert (Hn : reports (visit {[ "ImportDeclaration" :=
                                  NoDirectScssImports.ImportDeclaration ctx ]} n)
                       Undefined
                       (if Shape.stylesheetImport n
                        then [Diagnostic n NoDirectScssImports.message] else [])).
  { destruct (has_type "ImportDeclaration" n) eqn:Ht.
    - rewrite (visit_same_kind _ _ _ Ht).
      apply ImportDeclaration_run; auto. apply Hwf. now left.
    - unfold Shape.stylesheetImport. rewrite Ht. simpl.
      apply evaluates_reports. now apply visit_other_kind. }
  simpl List.filter.
  replace (map (fun n0 => Diagnostic n0 NoDirectScssImports.message)
               (if Shape.stylesheetImport n
                then n :: List.filter Shape.stylesheetImport nodes
                else List.filter Shape.stylesheetImport nodes))
    with ((if Shape.stylesheetImport n
           then [Diagnostic n NoDirectScssImports.message] else [])
          ++ map (fun n0 => Diagnostic n0 NoDirectScssImports.message)
                 (List.filter Shape.stylesheetImport nodes))
    by (destruct (Shape.stylesheetImport n); reflexivity).
  eapply reports_append; [exact Hn|]. apply IH. intros m Hm. apply Hwf. now right.
Qed.

Lemma stylesheet_imports_witness :
  reports (lint NoDirectScssImports.create (Examples.route [] [])
             [ESTree.ImportDeclaration "./a.scss";
              ESTree.Identifier "x";
              ESTree.ImportDeclaration "./b.ts";
              ESTree.ImportDeclaration "./c.css"])
          Undefined
          [Diagnostic (ESTree.ImportDeclaration "./a.scss") NoDirectScssImports.message;
           Diagnostic (ESTree.ImportDeclaration "./c.css") NoDirectScssImports.message].
Proof.
  apply (stylesheet_imports_are_reported_in_order (Examples.route [] [])
           [ESTree.ImportDeclaration "./a.scss";
            ESTree.Identifier "x";
            ESTree.ImportDeclaration "./b.ts";
            ESTree.ImportDeclaration "./c.css"]).
  intros n [<- | [<- | [<- | [<- | []]]]]; reflexivity.
Defined.

Section DocumentHeadOrder.
Context {engine : RegExpEngine}.
Import RequireDocumentHead.

Lemma existsb_incl {A} (f : A -> bool) l l' :
  (forall x, In x l -> In x l') -> existsb f l = true -> existsb f l' = true.
Proof.
  intros Hincl H. apply existsb_exists in H as (x & Hx & Hf).
  apply existsb_exists. exists x. auto.
Qed.

Lemma existsb_permutation {A} (f : A -> bool) l l' :
  Permutation l l' -> existsb f l = existsb f l'.
Proof.
  intros Hp. destruct (existsb f l) eqn:E; symmetry.
  - eapply existsb_incl; [|exact E]. intros x. now apply Permutation_in.
  - destruct (existsb f l') eqn:E'; [|reflexivity].
    rewrite <- E. symmetry. eapply existsb_incl; [|exact E']. intros x.
    apply Permutation_in. now symmetry.
Qed.

Lemma forallb_permutation {A} (f : A -> bool) l l' :
  Permutation l l' -> forallb f l = true -> forallb f l' = true.
Proof.
  intros Hp H. apply forallb_forall. intros x Hx.
  apply (proj1 (forallb_forall f l) H). eapply Permutation_in; [|exact Hx].
  now symmetry.
Qed.

(** X12.  When every configured pattern is valid, the order of the
    patterns does not matter: two configurations with the same patterns in
    different order either both exclude the file or both register the
    [Program] callback. *)
Theorem valid_patterns_exclude_in_any_order ctx ctx' :
  getFilename ctx = getFilename ctx' ->
  Permutation (Spec.patterns ctx) (Spec.patterns ctx') ->
  forallb Spec.compiles (Spec.patterns ctx) = true ->
  (evaluates (create ctx) (Normal ∅) /\ evaluates (create ctx') (Normal ∅))
  \/ (evaluates (create ctx) (Normal {[ "Program" := Program ctx ]})
      /\ evaluates (create ctx') (Normal {[ "Program" := Program ctx' ]})).
Proof.
  intros Hf Hp Hc.
  pose proof (forallb_permutation _ _ _ Hp Hc) as Hc'.
  pose proof (create_evaluates ctx _ (isExcluded_all_compile _ _ Hc)) as H.
  pose proof (create_evaluates ctx' _ (isExcluded_all_compile _ _ Hc')) as H'.
  rewrite <- Hf, <- (existsb_permutation _ _ _ Hp) in H'.
  destruct (existsb (Spec.matches (getFilename ctx)) (Spec.patterns ctx));
    [left | right]; auto.
Qed.

(** X13.  The [head] export is looked for among all top-level
    statements: a file that holds the statements of an unreported file, in
    any order and among any others, is not reported either. *)
Theorem more_statements_keep_the_head_export ctx ctx' node :
  estree (ast ctx) = true -> has_type "Program" (ast ctx) = true ->
  estree (ast ctx') = true -> has_type "Program" (ast ctx') = true ->
  (forall stmt, In stmt (Spec.body ctx) -> In stmt (Spec.body ctx')) ->
  reports (Program ctx node) Undefined [] ->
  reports (Program ctx' node) Undefined [].
Proof.
  intros Hwf Ht Hwf' Ht' Hincl Hrun.
  pose proof (Program_run ctx node Hwf Ht) as H.
  pose proof (Program_run ctx' node Hwf' Ht') as H'.
  assert (Hd : Decide.exportsHead Spec.isArrowFunction (Spec.body ctx) = true).
  { destruct (Decide.exportsHead Spec.isArrowFunction (Spec.body ctx));
      [reflexivity|].
    specialize (H []). rewrite (Hrun []) in H. discriminate H. }
  unfold Decide.exportsHead in *.
  now rewrite (existsb_incl _ _ _ Hincl Hd) in H'.
Qed.

End DocumentHeadOrder.

Lemma valid_patterns_witness :
  (evaluates (@RequireDocumentHead.create literal_engine Examples.route_excluded)
             (Normal ∅)
   /\ evaluates (@RequireDocumentHead.create literal_engine
                   (Examples.route [RuleOptions (Some ["routes/about"; "layout"])] []))
                (Normal ∅))
  \/ (evaluates (@RequireDocumentHead.create literal_engine Examples.route_excluded)
                (Normal {[ "Program" :=
                             RequireDocumentHead.Program Examples.route_excluded ]})
      /\ evaluates (@RequireDocumentHead.create literal_engine
                      (Examples.route [RuleOptions (Some ["routes/about"; "layout"])] []))
                   (Normal {[ "Program" :=
                                RequireDocumentHead.Program
                                  (Examples.route
                                     [RuleOptions (Some ["routes/about"; "layout"])]
                                     []) ]})).
Proof.
  apply (@valid_patterns_exclude_in_any_order literal_engine
           Examples.route_excluded
           (Examples.route [RuleOptions (Some ["routes/about"; "layout"])] []));
    try reflexivity.
  apply perm_swap.
Defined.

Lemma more_statements_witness :
  reports (RequireDocumentHead.Program
             (Examples.route []
                [Examples.export_function_head;
                 Examples.export_head
                   (ESTree.ArrowFunctionExpression [] ESTree.BlockStatement)])
             Undefined)
          Undefined [].
Proof.
  apply (more_statements_keep_the_head_export
           (Examples.route []
              [Examples.export_head
                 (ESTree.ArrowFunctionExpression [] ESTree.BlockStatement)])
           (Examples.route []
              [Examples.export_function_head;
               Examples.export_head
                 (ESTree.ArrowFunctionExpression [] ESTree.BlockStatement)]));
    try reflexivity.
  - intros stmt [<- | []]. right. now left.
  - intros s. rewrite app_nil_r. reflexivity.
Defined.
